(** * validate-docs: XML documentation-comment validator

    A shallow embedding of [scripts/validate-docs.py]: the line scanner
    [extract_xml_doc_blocks], the placeholder check [check_for_placeholders],
    the per-file policy [validate_file] and the accumulation loop of [main].

    Text is a [string] whose characters are code points below 256; the
    character tables ([isspace], the regex classes, case folding) are
    Python's tables restricted to that range.  Line numbers are [nat]. *)

From Stdlib Require Import Bool Arith Lia List Sorted Ascii String.
Import ListNotations.
Open Scope string_scope.
Open Scope nat_scope.

(* ================================================================== *)
(** ** Characters *)

Definition code (c : ascii) : nat := nat_of_ascii c.

Definition between (lo hi : nat) (c : ascii) : bool :=
  (lo <=? code c) && (code c <=? hi).

Definition nl : ascii := ascii_of_nat 10.
Definition dq : string := String (ascii_of_nat 34) "".

(** [str.isspace] on one character, which is also the regex class [\s]. *)
Definition isspace (c : ascii) : bool :=
  between 9 13 c || between 28 32 c || (code c =? 133) || (code c =? 160).

(** The regex class [\w]: alphanumeric characters and the underscore. *)
Definition isword (c : ascii) : bool :=
  between 48 57 c || between 65 90 c || (code c =? 95) || between 97 122 c
  || (code c =? 170) || between 178 179 c || (code c =? 181)
  || between 185 186 c || between 188 190 c
  || between 192 214 c || between 216 246 c || between 248 255 c.

(** Simple lower-casing, as used by case-insensitive matching. *)
Definition lower (c : ascii) : ascii :=
  if between 65 90 c || (between 192 222 c && negb (code c =? 215))
  then ascii_of_nat (code c + 32) else c.

(* ================================================================== *)
(** ** The [str] methods the script uses *)

Fixpoint lstrip (s : string) : string :=
  match s with
  | String c s' => if isspace c then lstrip s' else s
  | EmptyString => s
  end.

Fixpoint rstrip (s : string) : string :=
  match s with
  | String c s' =>
      match rstrip s' with
      | EmptyString => if isspace c then EmptyString else String c EmptyString
      | r => String c r
      end
  | EmptyString => EmptyString
  end.

Definition strip (s : string) : string := rstrip (lstrip s).

Definition startswith (s p : string) : bool := prefix p s.

(** [needle in hay] *)
Fixpoint contains (needle hay : string) : bool :=
  prefix needle hay ||
  match hay with
  | String _ h => contains needle h
  | EmptyString => false
  end.

Fixpoint split_aux (s : string) : string * list string :=
  match s with
  | EmptyString => (EmptyString, [])
  | String c s' =>
      let (l, ls) := split_aux s' in
      if Ascii.eqb c nl then (EmptyString, l :: ls) else (String c l, ls)
  end.

(** [s.split('\n')] *)
Definition split_nl (s : string) : list string :=
  let (l, ls) := split_aux s in l :: ls.

(** ['\n'.join(ls)] *)
Definition join_nl (ls : list string) : string :=
  concat (String nl "") ls.

Fixpoint take (n : nat) (s : string) : string :=
  match n, s with
  | S n', String c s' => String c (take n' s')
  | _, _ => EmptyString
  end.

(* ================================================================== *)
(** ** Regular expressions: the fragment of [re] the script uses *)

Module Re.

Inductive cset : Type :=
| Lit (c : ascii)      (* a literal character, escaped or not *)
| Space                (* \s *)
| Word                 (* \w *)
| Dot.                 (* .  *)

Inductive regex : Type :=
| Eps
| Chr (c : cset)
| Star (c : cset)              (* c*  greedy *)
| Plus (c : cset)              (* c+  greedy *)
| Opt (r : regex)              (* r?  greedy *)
| Cat (r1 r2 : regex)
| Alt (r1 r2 : regex)          (* r1|r2 *)
| Grp (r : regex)              (* (r)   capturing *)
| NGrp (r : regex)             (* (?:r) *)
| Bol                          (* ^ *)
| Eol.                         (* $ *)

(** A literal word, character by character. *)
Fixpoint lit (s : string) : regex :=
  match s with
  | EmptyString => Eps
  | String c EmptyString => Chr (Lit c)
  | String c s' => Cat (Chr (Lit c)) (lit s')
  end.

(** *** Concrete syntax *)

Definition is_meta (c : ascii) : bool :=
  existsb (Ascii.eqb c) (list_ascii_of_string ".^$*+?{}[]\|()").

Definition show_cset (c : cset) : string :=
  match c with
  | Lit a => if is_meta a then String "\" (String a "") else String a ""
  | Space => "\s"
  | Word => "\w"
  | Dot => "."
  end.

Fixpoint show (r : regex) : string :=
  match r with
  | Eps => ""
  | Chr c => show_cset c
  | Star c => show_cset c ++ "*"
  | Plus c => show_cset c ++ "+"
  | Opt r => show r ++ "?"
  | Cat r1 r2 => show r1 ++ show r2
  | Alt r1 r2 => show r1 ++ "|" ++ show r2
  | Grp r => "(" ++ show r ++ ")"
  | NGrp r => "(?:" ++ show r ++ ")"
  | Bol => "^"
  | Eol => "$"
  end.

(** The syntax tree reads back unambiguously from [show]: a quantifier
    applies to a single character or a group, and an alternation is never
    an operand of a concatenation or of a quantifier. *)
Definition is_alt (r : regex) : bool :=
  match r with Alt _ _ => true | _ => false end.

Definition is_atom (r : regex) : bool :=
  match r with Chr _ | Grp _ | NGrp _ => true | _ => false end.

Fixpoint wf (r : regex) : bool :=
  match r with
  | Opt r => is_atom r && wf r
  | Cat r1 r2 => negb (is_alt r1) && negb (is_alt r2) && wf r1 && wf r2
  | Alt r1 r2 => wf r1 && wf r2
  | Grp r | NGrp r => wf r
  | _ => true
  end.

(** *** Matching *)

Definition cset_mem (icase : bool) (c : cset) (a : ascii) : bool :=
  match c with
  | Lit b => if icase then Ascii.eqb (lower a) (lower b) else Ascii.eqb a b
  | Space => isspace a
  | Word => isword a
  | Dot => negb (Ascii.eqb a nl)
  end.

(** Number of capturing groups of a pattern. *)
Fixpoint ngroups (r : regex) : nat :=
  match r with
  | Opt r | NGrp r => ngroups r
  | Grp r => S (ngroups r)
  | Cat r1 r2 | Alt r1 r2 => ngroups r1 + ngroups r2
  | _ => 0
  end.

(** Captured groups, most recent first. *)
Definition caps : Type := list (nat * string).

(** A continuation receives the position reached, the text left and the
    groups captured so far. *)
Definition cont : Type := nat -> string -> caps -> option caps.

(** Greedy repetition of one character class: take as many characters as
    possible, give them back one at a time when the rest fails. *)
Fixpoint star_c (p : ascii -> bool) (k : cont) (pos : nat) (s : string)
    (g : caps) : option caps :=
  match s with
  | String a s' =>
      if p a then
        match star_c p k (S pos) s' g with
        | Some m => Some m
        | None => k pos s g
        end
      else k pos s g
  | EmptyString => k pos s g
  end.

(** Backtracking matcher.  [n] is the number of capturing groups opened to
    the left of [r] in the whole pattern. *)
Fixpoint bt (icase : bool) (r : regex) (n : nat) (k : cont) (pos : nat)
    (s : string) (g : caps) : option caps :=
  match r with
  | Eps => k pos s g
  | Chr c =>
      match s with
      | String a s' => if cset_mem icase c a then k (S pos) s' g else None
      | EmptyString => None
      end
  | Star c => star_c (cset_mem icase c) k pos s g
  | Plus c =>
      match s with
      | String a s' =>
          if cset_mem icase c a
          then star_c (cset_mem icase c) k (S pos) s' g else None
      | EmptyString => None
      end
  | Opt r =>
      match bt icase r n k pos s g with
      | Some m => Some m
      | None => k pos s g
      end
  | Cat r1 r2 =>
      bt icase r1 n (fun pos' s' g' => bt icase r2 (n + ngroups r1) k pos' s' g')
         pos s g
  | Alt r1 r2 =>
      match bt icase r1 n k pos s g with
      | Some m => Some m
      | None => bt icase r2 (n + ngroups r1) k pos s g
      end
  | Grp r =>
      bt icase r (S n)
         (fun pos' s' g' => k pos' s' ((S n, take (pos' - pos) s) :: g'))
         pos s g
  | NGrp r => bt icase r n k pos s g
  | Bol => if pos =? 0 then k pos s g else None
  | Eol =>
      match s with
      | EmptyString => k pos s g
      | String a EmptyString => if Ascii.eqb a nl then k pos s g else None
      | _ => None
      end
  end.

Definition accept : cont := fun _ _ g => Some g.

(** [re.match(r, s)]: a match starting at the first character. *)
Definition rmatch (icase : bool) (r : regex) (s : string) : option caps :=
  bt icase r 0 accept 0 s [].

Fixpoint search_from (icase : bool) (r : regex) (pos : nat) (s : string)
  : option caps :=
  match bt icase r 0 accept pos s [] with
  | Some m => Some m
  | None =>
      match s with
      | String _ s' => search_from icase r (S pos) s'
      | EmptyString => None
      end
  end.

(** [re.search(r, s)]: the leftmost match. *)
Definition search (icase : bool) (r : regex) (s : string) : option caps :=
  search_from icase r 0 s.

(** [m.group(i)] for a group that took part in the match. *)
Fixpoint group (m : caps) (i : nat) : string :=
  match m with
  | (j, t) :: m' => if i =? j then t else group m' i
  | [] => EmptyString
  end.

Definition is_match (m : option caps) : bool :=
  match m with Some _ => true | None => false end.

End Re.

(* ================================================================== *)
(** ** Patterns of the script *)

Import Re.

Fixpoint cats (rs : list regex) : regex :=
  match rs with
  | [] => Eps
  | [r] => r
  | r :: rs' => Cat r (cats rs')
  end.

Fixpoint alts (rs : list regex) : regex :=
  match rs with
  | [] => Eps
  | [r] => r
  | r :: rs' => Alt r (alts rs')
  end.

(** [(public|internal|protected|protected\s+internal)] *)
Definition visibility : regex :=
  Grp (alts [lit "public"; lit "internal"; lit "protected";
             cats [lit "protected"; Plus Space; lit "internal"]]).

(** [^\s*(public|internal|protected|protected\s+internal)\s+], the common
    head of the eleven declaration patterns. *)
Definition decl_head : list regex :=
  [Bol; Star Space; visibility; Plus Space].

Definition static_opt : regex := Opt (NGrp (cats [lit "static"; Plus Space])).
Definition readonly_opt : regex := Opt (NGrp (cats [lit "readonly"; Plus Space])).
Definition operator_kw : regex := lit "operator".

(** The pattern list of the member-declaration loop, in source order. *)
Definition MEMBER_PATTERNS : list regex :=
  [ cats (decl_head ++ [Star Dot; Plus Space; Grp (Plus Word); Star Space;
                        Chr (Lit "("%char)])%list;
    cats (decl_head ++ [static_opt; Grp (Plus Word); Star Space;
                        Chr (Lit "{"%char)])%list;
    cats (decl_head ++ [static_opt; readonly_opt; Grp (Plus Word);
                        Plus Space; Grp (Plus Word); Star Space;
                        Chr (Lit "{"%char)])%list;
    cats (decl_head ++ [static_opt;
                        NGrp (alts [lit "class"; lit "struct";
                                    lit "interface"; lit "enum"]);
                        Plus Space; Grp (Plus Word)])%list;
    cats (decl_head ++ [lit "implicit"; Plus Space; operator_kw])%list;
    cats (decl_head ++ [lit "explicit"; Plus Space; operator_kw])%list;
    cats (decl_head ++ [lit "static"; Plus Space; lit "implicit";
                        Plus Space; operator_kw])%list;
    cats (decl_head ++ [lit "static"; Plus Space; lit "explicit";
                        Plus Space; operator_kw])%list;
    cats (decl_head ++ [lit "static"; Plus Space; Plus Word; Plus Space;
                        operator_kw])%list;
    cats (decl_head ++ [Plus Word; Plus Space; operator_kw])%list;
    cats (decl_head ++ [static_opt;
                        Opt (NGrp (cats [Plus Word; Plus Space]));
                        operator_kw])%list ].

(** The pattern of [content_match], which extracts the text after the
    marker; [content_pattern_src] below gives its source text. *)
Definition CONTENT_PATTERN : regex :=
  cats [Bol; Star Space; lit "///"; Star Space; Grp (Star Dot); Eol].

Definition PLACEHOLDER_PATTERNS : list regex :=
  [ cats [lit "invoke"; Plus Space; lit "the"; Plus Space; lit "member";
          Plus Space; lit "here"];
    cats [lit "invoke"; Plus Space; lit "member"; Plus Space; lit "here"];
    lit "TODO";
    lit "placeholder";
    lit "......" ].

(** The markers looked for inside a comment line. *)
Definition DOC_MARKER : string := "///".
Definition SUMMARY_OPEN : string := "<summary>".
Definition SUMMARY_CLOSE : string := "</summary>".
Definition EXAMPLE_OPEN : string := "<example>".
Definition CODE_OPEN : string := "<code lang=" ++ dq ++ "csharp" ++ dq ++ ">".
Definition CODE_CLOSE : string := "</code>".

(* ================================================================== *)
(** ** Data model *)

Record DocIssue : Type := mkDocIssue {
  file : string;
  line : nat;
  issue_type : string;
  message : string
}.

Record XmlDocBlock : Type := mkXmlDocBlock {
  start_line : nat;
  end_line : nat;
  has_summary : bool;
  has_example : bool;
  has_code_csharp : bool;
  code_content : string;
  member_line : nat;
  member_type : string;
  member_name : string
}.

(** [XmlDocBlock(start_line=i, end_line=i)] with the dataclass defaults. *)
Definition new_block (i : nat) : XmlDocBlock :=
  mkXmlDocBlock i i false false false "" 0 "" "".

Definition set_end_line (i : nat) (b : XmlDocBlock) : XmlDocBlock :=
  mkXmlDocBlock (start_line b) i (has_summary b) (has_example b)
    (has_code_csharp b) (code_content b) (member_line b) (member_type b)
    (member_name b).

Definition set_has_summary (b : XmlDocBlock) : XmlDocBlock :=
  mkXmlDocBlock (start_line b) (end_line b) true (has_example b)
    (has_code_csharp b) (code_content b) (member_line b) (member_type b)
    (member_name b).

Definition set_has_example (b : XmlDocBlock) : XmlDocBlock :=
  mkXmlDocBlock (start_line b) (end_line b) (has_summary b) true
    (has_code_csharp b) (code_content b) (member_line b) (member_type b)
    (member_name b).

Definition set_has_code_csharp (b : XmlDocBlock) : XmlDocBlock :=
  mkXmlDocBlock (start_line b) (end_line b) (has_summary b) (has_example b)
    true (code_content b) (member_line b) (member_type b) (member_name b).

Definition set_code_content (t : string) (b : XmlDocBlock) : XmlDocBlock :=
  mkXmlDocBlock (start_line b) (end_line b) (has_summary b) (has_example b)
    (has_code_csharp b) t (member_line b) (member_type b) (member_name b).

Definition set_member_line (i : nat) (b : XmlDocBlock) : XmlDocBlock :=
  mkXmlDocBlock (start_line b) (end_line b) (has_summary b) (has_example b)
    (has_code_csharp b) (code_content b) i (member_type b) (member_name b).

(* ================================================================== *)
(** ** extract_xml_doc_blocks *)

(** The local variables of the scanning loop. *)
Record scan_state : Type := mkScan {
  st_blocks : list XmlDocBlock;
  st_current_block : option XmlDocBlock;
  st_in_code : bool;
  st_code_content : list string
}.

Definition scan_init : scan_state := mkScan [] None false [].

(** [stripped.startswith('///')] *)
Definition is_doc_line (l : string) : bool :=
  startswith (strip l) DOC_MARKER.

(** The inner [for pattern in [...]] loop: stops at the first pattern that
    [re.search] finds in the line. *)
Fixpoint first_match (patterns : list regex) (l : string) : bool :=
  match patterns with
  | [] => false
  | p :: ps => if is_match (search false p l) then true else first_match ps l
  end.

Definition is_member_line (l : string) : bool :=
  first_match MEMBER_PATTERNS l.

(** [re.match] of the content pattern on the line, and its [group(1)]. *)
Definition content_match (l : string) : option string :=
  match rmatch false CONTENT_PATTERN l with
  | Some m => Some (group m 1)
  | None => None
  end.

(** The body of the loop on a comment line. *)
Definition doc_step (i : nat) (l : string) (st : scan_state) : scan_state :=
  let stripped := strip l in
  let b0 := match st_current_block st with
            | None => new_block i
            | Some b => set_end_line i b
            end in
  let b1 := if contains SUMMARY_OPEN stripped
               || (has_summary b0 && negb (contains SUMMARY_CLOSE stripped))
            then set_has_summary b0 else b0 in
  let b2 := if contains EXAMPLE_OPEN stripped then set_has_example b1 else b1 in
  let opened := contains CODE_OPEN stripped in
  let b3 := if opened then set_has_code_csharp b2 else b2 in
  let in_code1 := if opened then true else st_in_code st in
  let cc1 := if opened then [] else st_code_content st in
  let closed := contains CODE_CLOSE stripped in
  let in_code2 := if closed then false else in_code1 in
  let b4 := if closed then set_code_content (join_nl cc1) b3 else b3 in
  let cc2 := if in_code2
             then match content_match l with
                  | Some t => (cc1 ++ [t])%list
                  | None => cc1
                  end
             else cc1 in
  mkScan (st_blocks st) (Some b4) in_code2 cc2.

(** The body of the loop on any other line. *)
Definition other_step (i : nat) (l : string) (st : scan_state) : scan_state :=
  let blocks :=
    match st_current_block st with
    | Some b =>
        if is_member_line l
        then (st_blocks st ++ [set_member_line i b])%list
        else st_blocks st
    | None => st_blocks st
    end in
  mkScan blocks None false [].

Definition step (i : nat) (l : string) (st : scan_state) : scan_state :=
  if is_doc_line l then doc_step i l st else other_step i l st.

(** [for i, line in enumerate(lines, start=i)] *)
Fixpoint scan (i : nat) (lines : list string) (st : scan_state) : scan_state :=
  match lines with
  | [] => st
  | l :: ls => scan (S i) ls (step i l st)
  end.

Definition extract_lines (lines : list string) : list XmlDocBlock :=
  st_blocks (scan 1 lines scan_init).

Definition extract_xml_doc_blocks (content : string) : list XmlDocBlock :=
  extract_lines (split_nl content).

(* ================================================================== *)
(** ** check_for_placeholders and validate_file *)

Definition check_for_placeholders (code_content : string) : list regex :=
  filter (fun p => is_match (search true p code_content)) PLACEHOLDER_PATTERNS.

Definition MSG_SUMMARY : string := "Non-private member missing <summary>".
Definition MSG_EXAMPLE : string :=
  "Non-private member missing <example> with " ++ CODE_OPEN.
Definition MSG_PLACEHOLDER (p : regex) : string :=
  "Code example contains placeholder pattern: " ++ show p.
Definition MSG_READ (e : string) : string := "Could not read file: " ++ e.

(** One iteration of the loop over the blocks of a file. *)
Definition check_block (file_path : string) (b : XmlDocBlock) : list DocIssue :=
  if negb (has_summary b) then
    [mkDocIssue file_path (start_line b) "error" MSG_SUMMARY]
  else if negb (has_example b) || negb (has_code_csharp b) then
    [mkDocIssue file_path (start_line b) "error" MSG_EXAMPLE]
  else
    map (fun p => mkDocIssue file_path (start_line b) "warning"
                    (MSG_PLACEHOLDER p))
        (check_for_placeholders (code_content b)).

(** What [Path.read_text] gives: the content, or the text of the exception
    it raised. *)
Inductive read_result : Type :=
| ReadOk (content : string)
| ReadError (e : string).

Definition filesystem : Type := string -> read_result.

Definition validate_file (fs : filesystem) (file_path : string)
  : list DocIssue :=
  match fs file_path with
  | ReadError e => [mkDocIssue file_path 0 "error" (MSG_READ e)]
  | ReadOk content => flat_map (check_block file_path)
                               (extract_xml_doc_blocks content)
  end.

(* ================================================================== *)
(** ** The loop of main *)

Record report : Type := mkReport {
  printed : list DocIssue;
  files_scanned : nat;
  files_with_issues : nat;
  total_issues : nat;
  total_errors : nat;
  total_warnings : nat
}.

Definition report_init : report := mkReport [] 0 0 0 0 0.

Definition count_issue (r : report) (d : DocIssue) : report :=
  if String.eqb (issue_type d) "error"
  then mkReport (printed r ++ [d])%list (files_scanned r) (files_with_issues r)
                (S (total_issues r)) (S (total_errors r)) (total_warnings r)
  else mkReport (printed r ++ [d])%list (files_scanned r) (files_with_issues r)
                (S (total_issues r)) (total_errors r) (S (total_warnings r)).

Definition count_file (fs : filesystem) (r : report) (file_path : string)
  : report :=
  let issues := validate_file fs file_path in
  let r1 := mkReport (printed r) (S (files_scanned r))
              (match issues with
               | [] => files_with_issues r
               | _ => S (files_with_issues r)
               end)
              (total_issues r) (total_errors r) (total_warnings r) in
  fold_left count_issue issues r1.

Definition run_files (fs : filesystem) (files : list string) : report :=
  fold_left (count_file fs) files report_init.

(** [sys.exit] status of main. *)
Definition exit_code (r : report) : nat :=
  if 0 <? total_errors r then 1 else 0.

(* ================================================================== *)
(** * Notions used by the statements *)

(** ** Line numbers *)

(** The comment lines of a block come before its declaration line. *)
Definition block_range_ok (b : XmlDocBlock) : Prop :=
  start_line b <= end_line b /\ end_line b < member_line b.

(** Every pushed block lies before line [i], in order; the open block, if
    any, lies after all of them and before line [i]. *)
Record scan_inv (i : nat) (st : scan_state) : Prop := mkInv {
  inv_range : Forall block_range_ok (st_blocks st);
  inv_before : Forall (fun b => member_line b < i) (st_blocks st);
  inv_sorted : StronglySorted (fun a b => member_line a < start_line b)
                 (st_blocks st);
  inv_current : forall b, st_current_block st = Some b ->
      start_line b <= end_line b /\ end_line b < i /\
      Forall (fun a => member_line a < start_line b) (st_blocks st)
}.

(** Number of lines the declaration patterns recognise. *)
Definition count_member_lines (ls : list string) : nat :=
  List.length (filter is_member_line ls).

(** Output of the scan when the lines [ls], numbered from [i], are read
    with no run open. *)
Definition blocks_from (i : nat) (ls : list string) : list XmlDocBlock :=
  st_blocks (scan i ls scan_init).

(** ** Diagnostics *)

(** The test [check_for_placeholders] applies to each pattern. *)
Definition matches_placeholder (text : string) (p : regex) : bool :=
  is_match (search true p text).

(** The warning issued for the pattern [p]. *)
Definition placeholder_warning (file_path : string) (b : XmlDocBlock)
    (p : regex) : DocIssue :=
  mkDocIssue file_path (start_line b) "warning" (MSG_PLACEHOLDER p).

(** ** The meaning of a pattern *)

(** All characters of [w] satisfy [p]. *)
Fixpoint allb (p : ascii -> bool) (w : string) : bool :=
  match w with
  | String c w' => p c && allb p w'
  | EmptyString => true
  end.

(** [den icase r s s']: the pattern [r] can consume a prefix of [s] and
    leave [s'].  The anchor [^] is left to the caller, who knows the
    position. *)
Fixpoint den (icase : bool) (r : regex) (s s' : string) : Prop :=
  match r with
  | Eps | Bol => s' = s
  | Eol => s' = s /\ (s = "" \/ s = String nl "")
  | Chr c => exists a, s = String a s' /\ cset_mem icase c a = true
  | Star c => exists w, s = w ++ s' /\ allb (cset_mem icase c) w = true
  | Plus c =>
      exists a w, s = String a (w ++ s') /\ cset_mem icase c a = true /\
                  allb (cset_mem icase c) w = true
  | Opt r => s' = s \/ den icase r s s'
  | Cat r1 r2 => exists t, den icase r1 s t /\ den icase r2 t s'
  | Alt r1 r2 => den icase r1 s s' \/ den icase r2 s s'
  | Grp r | NGrp r => den icase r s s'
  end.

(** What follows the common head in each of the eleven patterns. *)
Definition MEMBER_TAILS : list (list regex) :=
  [ [Star Dot; Plus Space; Grp (Plus Word); Star Space; Chr (Lit "("%char)];
    [static_opt; Grp (Plus Word); Star Space; Chr (Lit "{"%char)];
    [static_opt; readonly_opt; Grp (Plus Word); Plus Space; Grp (Plus Word);
     Star Space; Chr (Lit "{"%char)];
    [static_opt;
     NGrp (alts [lit "class"; lit "struct"; lit "interface"; lit "enum"]);
     Plus Space; Grp (Plus Word)];
    [lit "implicit"; Plus Space; operator_kw];
    [lit "explicit"; Plus Space; operator_kw];
    [lit "static"; Plus Space; lit "implicit"; Plus Space; operator_kw];
    [lit "static"; Plus Space; lit "explicit"; Plus Space; operator_kw];
    [lit "static"; Plus Space; Plus Word; Plus Space; operator_kw];
    [Plus Word; Plus Space; operator_kw];
    [static_opt; Opt (NGrp (cats [Plus Word; Plus Space])); operator_kw] ].

(** A declaration pattern: the common head, then its own tail. *)
Definition with_head (tail : list regex) : regex :=
  Cat Bol (Cat (Star Space) (Cat visibility (Cat (Plus Space) (cats tail)))).

(** The text one of which a recognised declaration line must contain. *)
Definition DECL_MARKS : list string :=
  ["("; "{"; "class"; "struct"; "interface"; "enum"; "operator"].

(** [l] holds one of [DECL_MARKS]. *)
Definition has_decl_mark (l : string) : bool :=
  existsb (fun x => contains x l) DECL_MARKS.

(** ** Comment lines and code samples *)

(** [s[n:]] *)
Fixpoint drop (n : nat) (s : string) : string :=
  match n, s with
  | S n', String _ s' => drop n' s'
  | _, _ => s
  end.

(** A comment line without its indentation, its marker and the whitespace
    that follows the marker. *)
Definition line_text (l : string) : string :=
  lstrip (drop 3 (lstrip l)).

(** Any character but the line break: what [.] matches. *)
Definition not_nl (a : ascii) : bool := negb (Ascii.eqb a nl).

(** [s] does not begin with a character of the class [p]. *)
Definition nostart (p : ascii -> bool) (s : string) : Prop :=
  match s with
  | String a _ => p a = false
  | EmptyString => True
  end.

(** The line holds the tagged open marker, the close marker. *)
Definition opens (l : string) : bool := contains CODE_OPEN (strip l).
Definition closes (l : string) : bool := contains CODE_CLOSE (strip l).

(** A comment line as it comes out of [split]. *)
Definition doc_text_line (l : string) : Prop :=
  is_doc_line l = true /\ allb not_nl l = true.

(** What the capture of a code sample looks at in the loop state: the
    text stored in the open block, the capturing flag and the lines
    captured so far. *)
Record capture (st : scan_state) (code : string) (ic : bool)
    (cc : list string) : Prop := mkCapture {
  cap_block : exists b, st_current_block st = Some b /\ code_content b = code;
  cap_in_code : st_in_code st = ic;
  cap_lines : st_code_content st = cc
}.

(** A comment line between the markers of a code sample. *)
Definition body_line (l : string) : Prop :=
  is_doc_line l = true /\ opens l = false /\ closes l = false.

(** A comment line without tagged open marker. *)
Definition after_line (l : string) : Prop :=
  is_doc_line l = true /\ opens l = false.

(** The lines of one closed code sample: the line with the tagged open
    marker, the lines up to the line with the close marker, and lines
    after it that open no new sample. *)
Record code_sample (open : string) (body : list string) (close : string)
    (more : list string) : Prop := mkSample {
  cs_open : is_doc_line open = true /\ opens open = true /\
            closes open = false;
  cs_body : Forall body_line body;
  cs_close : is_doc_line close = true /\ opens close = false /\
             closes close = true;
  cs_more : Forall after_line more
}.

(** The fields of the open block, with the defaults of a new block when
    no run is open. *)
Definition opened_so_far (st : scan_state) : bool :=
  match st_current_block st with
  | Some b => has_code_csharp b
  | None => false
  end.

Definition stored_code (st : scan_state) : string :=
  match st_current_block st with
  | Some b => code_content b
  | None => ""
  end.

Definition start_or (i : nat) (st : scan_state) : nat :=
  match st_current_block st with
  | Some b => start_line b
  | None => i
  end.

(** Nothing is stored and nothing is being captured. *)
Definition idle (st : scan_state) : Prop :=
  stored_code st = "" /\ st_in_code st = false /\ st_code_content st = [].

(** A comment line without close marker. *)
Definition unclosed_line (l : string) : Prop :=
  is_doc_line l = true /\ closes l = false.


(** [last_sample run captured]: [captured] are the lines of [run] that
    belong to the code sample opened and closed last.  The loop tests the
    markers line by line, so a sample is opened by a line that holds the
    tagged open marker and closed by the first line, from that line on,
    that holds a close marker.
    - Markers on lines of their own: after the lines [earlier], [open]
      holds the open marker only, the lines of [body] hold no marker and
      [close] holds the close marker only; then no sample is both opened
      and closed any more: the lines of [more] hold no open marker and the
      lines of [tail] hold no close marker.  The sample is [open :: body].
    - Both markers on one line: the line [both] opens and closes the
      sample at once, so the sample has no line at all; again [more] holds
      no open marker and [tail] no close marker. *)
Inductive last_sample : list string -> list string -> Prop :=
| last_sample_lines (earlier body more tail : list string)
      (open close : string) :
    Forall (fun l => is_doc_line l = true) earlier ->
    code_sample open body close more ->
    Forall unclosed_line tail ->
    last_sample (earlier ++ (open :: body ++ close :: more) ++ tail)
                (open :: body)
| last_sample_one_line (earlier more tail : list string) (both : string) :
    Forall (fun l => is_doc_line l = true) earlier ->
    is_doc_line both = true -> opens both = true -> closes both = true ->
    Forall after_line more ->
    Forall unclosed_line tail ->
    last_sample (earlier ++ (both :: more) ++ tail) [].

(* ================================================================== *)
(** * Small files used as examples *)

(** A documented field, written without parenthesis or brace. *)
Definition field_example : string :=
  join_nl ["/// <summary>The count.</summary>"; "public int Count;"].

(** The same member written as a property. *)
Definition property_example : string :=
  join_nl ["/// <summary>The count.</summary>"; "public int Count { get; }"].

(** A method documented with a code sample whose line is indented. *)
Definition code_example : string :=
  join_nl [ "/// <summary>One.</summary>";
            "/// <example>";
            "/// " ++ CODE_OPEN;
            "///   return 1;";
            "/// </code>";
            "/// </example>";
            "public int One() {" ].

(** A method documented with two tagged code samples, and a third one
    that is never closed. *)
Definition two_samples : string :=
  join_nl [ "/// <summary>Two.</summary>";
            "/// <example>";
            "/// " ++ CODE_OPEN;
            "/// first();";
            "/// </code>";
            "/// " ++ CODE_OPEN;
            "/// second();";
            "/// </code>";
            "/// </example>";
            "/// " ++ CODE_OPEN;
            "/// third();";
            "public void Two() {" ].

(** A method documented with two tagged code samples, the second one
    opened on the line that closes the first. *)
Definition shared_line_example : string :=
  join_nl [ "/// <summary>Two.</summary>";
            "/// <example>";
            "/// " ++ CODE_OPEN;
            "/// first();";
            "/// </code> " ++ CODE_OPEN;
            "/// second();";
            "/// </code>";
            "/// </example>";
            "public void Two() {" ].

(** A method whose code sample is opened and never closed. *)
Definition unclosed_example : string :=
  join_nl [ "/// <summary>Open.</summary>";
            "/// <example>";
            "/// " ++ CODE_OPEN;
            "/// TODO invoke the member here";
            "public void Open() {" ].

(** The loop state after the first line of a summary. *)
Definition open_summary_state : scan_state :=
  scan 1 ["/// <summary>"] scan_init.

(** A run before a private member, and a run at the end of the file. *)
Definition dangling_example : string :=
  join_nl [ "/// <summary>Hidden.</summary>";
            "private int hidden;";
            "/// <summary>Nothing follows.</summary>" ].

(** A run, a blank line, then a method. *)
Definition blank_example : string :=
  join_nl [ "/// <summary>Detached.</summary>"; "  "; "public void Run() {" ].

(** A file system in which one file cannot be read. *)
Definition broken_fs : filesystem :=
  fun p => if String.eqb p "Bad.cs" then ReadError "Permission denied"
           else ReadOk code_example.

(** A type whose code sample still holds a TODO. *)
Definition todo_example : string :=
  join_nl [ "/// <summary>Kind.</summary>";
            "/// <example>";
            "/// " ++ CODE_OPEN;
            "/// // TODO";
            "/// </code>";
            "/// </example>";
            "public class Kind" ].

(** A complete block whose code text holds two placeholders. *)
Definition sample_block : XmlDocBlock :=
  mkXmlDocBlock 3 5 true true true "var x = TODO; ......" 6 "" "".

(** A property with a summary and nothing else. *)
Definition no_example : string :=
  join_nl [ "/// <summary>Name.</summary>";
            "public string Name { get; set; }" ].

(* ================================================================== *)
(** * Notions used by the further properties *)

(** ** Blocks and the lines of the file *)

(** The line numbered [k], counting from 1. *)
Definition line_at (ls : list string) (k : nat) : option string :=
  match k with
  | 0 => None
  | S j => nth_error ls j
  end.

(** A block that really documents a declaration of the file [ls]: its
    lines are comment lines, the line before them is not, and the line
    right after them is a recognised declaration. *)
Record block_sound (ls : list string) (b : XmlDocBlock) : Prop := mkSound {
  bs_start : 1 <= start_line b;
  bs_range : start_line b <= end_line b;
  bs_next : member_line b = end_line b + 1;
  bs_docs : forall j, start_line b <= j <= end_line b ->
            exists l, line_at ls j = Some l /\ is_doc_line l = true;
  bs_decl : exists l, line_at ls (member_line b) = Some l /\
            is_doc_line l = false /\ is_member_line l = true;
  bs_max : forall l, line_at ls (start_line b - 1) = Some l ->
           is_doc_line l = false
}.

(** The run that is open after the lines [ls]: it ends on the last of
    them. *)
Record open_sound (ls : list string) (b : XmlDocBlock) : Prop := mkOpenSound {
  os_start : 1 <= start_line b;
  os_range : start_line b <= end_line b;
  os_end : end_line b = List.length ls;
  os_docs : forall j, start_line b <= j <= end_line b ->
            exists l, line_at ls j = Some l /\ is_doc_line l = true;
  os_max : forall l, line_at ls (start_line b - 1) = Some l ->
           is_doc_line l = false
}.

(** What the loop state says about the lines read so far. *)
Definition state_sound (ls : list string) (st : scan_state) : Prop :=
  Forall (block_sound ls) (st_blocks st) /\
  match st_current_block st with
  | Some b => open_sound ls b
  | None => forall l, line_at ls (List.length ls) = Some l ->
                      is_doc_line l = false
  end.

(** The flags of the open block, false when no run is open. *)
Definition summary_so_far (st : scan_state) : bool :=
  match st_current_block st with
  | Some b => has_summary b
  | None => false
  end.

Definition example_so_far (st : scan_state) : bool :=
  match st_current_block st with
  | Some b => has_example b
  | None => false
  end.

(** The line holds the summary open marker, the example open marker. *)
Definition has_summary_open (l : string) : bool :=
  contains SUMMARY_OPEN (strip l).
Definition has_example_open (l : string) : bool :=
  contains EXAMPLE_OPEN (strip l).

(** A block moved [n] lines down. *)
Definition shift_block (n : nat) (b : XmlDocBlock) : XmlDocBlock :=
  mkXmlDocBlock (start_line b + n) (end_line b + n) (has_summary b)
    (has_example b) (has_code_csharp b) (code_content b) (member_line b + n)
    (member_type b) (member_name b).

(** An open block moved [n] lines down; its declaration line is not set
    yet. *)
Definition shift_open (n : nat) (b : XmlDocBlock) : XmlDocBlock :=
  mkXmlDocBlock (start_line b + n) (end_line b + n) (has_summary b)
    (has_example b) (has_code_csharp b) (code_content b) (member_line b)
    (member_type b) (member_name b).

Definition shift_state (n : nat) (st : scan_state) : scan_state :=
  mkScan (map (shift_block n) (st_blocks st))
         (option_map (shift_open n) (st_current_block st))
         (st_in_code st) (st_code_content st).

(** ** Diagnostics and the verdict of main *)

(** The test of the counting loop: the diagnostic is an error. *)
Definition is_error (d : DocIssue) : bool :=
  String.eqb (issue_type d) "error".

(** The files that got at least one diagnostic. *)
Definition has_issues (fs : filesystem) (file_path : string) : bool :=
  match validate_file fs file_path with
  | [] => false
  | _ => true
  end.

(** The closing message of main, with the count it prints. *)
Inductive verdict : Type :=
| Failed (errors : nat)
| PassedWithWarnings (warnings : nat)
| Passed.

Definition main_verdict (r : report) : verdict :=
  if 0 <? total_errors r then Failed (total_errors r)
  else if 0 <? total_warnings r then PassedWithWarnings (total_warnings r)
  else Passed.

(** ** Patterns without anchors, and text compared without letter case *)

(** The pattern holds no [^]. *)
Fixpoint nobol (r : regex) : bool :=
  match r with
  | Bol => false
  | Opt r | Grp r | NGrp r => nobol r
  | Cat r1 r2 | Alt r1 r2 => nobol r1 && nobol r2
  | _ => true
  end.

(** The pattern holds no [$]. *)
Fixpoint noeol (r : regex) : bool :=
  match r with
  | Eol => false
  | Opt r | Grp r | NGrp r => noeol r
  | Cat r1 r2 | Alt r1 r2 => noeol r1 && noeol r2
  | _ => true
  end.

(** [s] starts with [p], letter case ignored. *)
Fixpoint prefix_ci (p s : string) : bool :=
  match p, s with
  | EmptyString, _ => true
  | String a p', String b s' => Ascii.eqb (lower b) (lower a) && prefix_ci p' s'
  | String _ _, EmptyString => false
  end.

(** [needle] occurs in [hay], letter case ignored. *)
Fixpoint contains_ci (needle hay : string) : bool :=
  prefix_ci needle hay ||
  match hay with
  | String _ h => contains_ci needle h
  | EmptyString => false
  end.

(** [s] is [p] up to letter case. *)
Fixpoint same_ci (p s : string) : bool :=
  match p, s with
  | EmptyString, EmptyString => true
  | String a p', String b s' => Ascii.eqb (lower b) (lower a) && same_ci p' s'
  | _, _ => false
  end.

(** The first placeholder pattern, the phrase with its three gaps. *)
Definition PHRASE_PATTERN : regex :=
  cats [lit "invoke"; Plus Space; lit "the"; Plus Space; lit "member";
        Plus Space; lit "here"].

(** A declaration pattern without its [^]. *)
Definition decl_body (tail : list regex) : regex :=
  Cat (Star Space) (Cat visibility (Cat (Plus Space) (cats tail))).

(** The three visibility keywords that stand alone. *)
Definition VISIBILITY_WORDS : list string :=
  ["public"; "internal"; "protected"].

(** The keywords of the type pattern. *)
Definition TYPE_WORDS : list string :=
  ["class"; "struct"; "interface"; "enum"].

(** One line of the second text is the line of the first with more or
    less indentation. *)
Definition same_but_indent (l l' : string) : Prop :=
  lstrip l' = lstrip l.

(** What is left of a line [name(rest] once a part of the name is
    consumed: word characters, the parenthesis, the rest. *)
Definition in_name (rest u : string) : Prop :=
  exists n, allb isword n = true /\ u = n ++ String "(" rest.

(** Line [k] of the file matches the declaration patterns and comes right
    after a comment line. *)
Definition documented_at (ls : list string) (k : nat) : Prop :=
  exists l0 l1,
    line_at ls (k - 1) = Some l0 /\ line_at ls k = Some l1 /\
    is_doc_line l0 = true /\ is_member_line l1 = true.

(** ** More small files *)

(** The method of [code_example], indented as inside a class. *)
Definition indented_example : string :=
  join_nl [ "    /// <summary>One.</summary>";
            "    /// <example>";
            "    /// " ++ CODE_OPEN;
            "    ///   return 1;";
            "    /// </code>";
            "    /// </example>";
            "    public int One() {" ].

(** A class with a documented constructor. *)
Definition constructor_example : string :=
  join_nl [ "/// <summary>Makes a widget.</summary>";
            "public Widget(int size)";
            "{";
            "}" ].

(** The phrase of the first placeholder pattern, spread over two lines. *)
Definition phrase_example : string :=
  "// Invoke" ++ String nl "THE member  here.".

(* ================================================================== *)
(** * The patterns read back as the source writes them *)

Example visibility_src :
  show visibility = "(public|internal|protected|protected\s+internal)".
Proof. reflexivity. Qed.

Example member_patterns_src :
  map show MEMBER_PATTERNS =
  [ "^\s*(public|internal|protected|protected\s+internal)\s+.*\s+(\w+)\s*\(";
    "^\s*(public|internal|protected|protected\s+internal)\s+(?:static\s+)?(\w+)\s*\{";
    "^\s*(public|internal|protected|protected\s+internal)\s+(?:static\s+)?(?:readonly\s+)?(\w+)\s+(\w+)\s*\{";
    "^\s*(public|internal|protected|protected\s+internal)\s+(?:static\s+)?(?:class|struct|interface|enum)\s+(\w+)";
    "^\s*(public|internal|protected|protected\s+internal)\s+implicit\s+operator";
    "^\s*(public|internal|protected|protected\s+internal)\s+explicit\s+operator";
    "^\s*(public|internal|protected|protected\s+internal)\s+static\s+implicit\s+operator";
    "^\s*(public|internal|protected|protected\s+internal)\s+static\s+explicit\s+operator";
    "^\s*(public|internal|protected|protected\s+internal)\s+static\s+\w+\s+operator";
    "^\s*(public|internal|protected|protected\s+internal)\s+\w+\s+operator";
    "^\s*(public|internal|protected|protected\s+internal)\s+(?:static\s+)?(?:\w+\s+)?operator" ].
Proof. reflexivity. Qed.

Example content_pattern_src :
  show CONTENT_PATTERN = "^\s*///\s*(." ++ "*" ++ ")$".
Proof. reflexivity. Qed.

Example placeholder_patterns_src :
  map show PLACEHOLDER_PATTERNS =
  [ "invoke\s+the\s+member\s+here";
    "invoke\s+member\s+here";
    "TODO";
    "placeholder";
    "\.\.\.\.\.\." ].
Proof. reflexivity. Qed.

Example patterns_wf :
  forallb wf (CONTENT_PATTERN :: MEMBER_PATTERNS ++ PLACEHOLDER_PATTERNS)%list
  = true.
Proof. reflexivity. Qed.

(* ================================================================== *)
(** * Properties of the scanning loop *)

Section ScanFacts.

Lemma scan_app (i : nat) (l1 l2 : list string) (st : scan_state) :
  scan i (l1 ++ l2)%list st = scan (i + List.length l1) l2 (scan i l1 st).
Proof.
  revert i st; induction l1 as [|l l1 IH]; intros i st; simpl.
  - now rewrite Nat.add_0_r.
  - rewrite IH. f_equal. lia.
Qed.

Lemma step_doc (i : nat) (l : string) (st : scan_state) :
  is_doc_line l = true -> step i l st = doc_step i l st.
Proof. unfold step; now intros ->. Qed.

Lemma step_other (i : nat) (l : string) (st : scan_state) :
  is_doc_line l = false -> step i l st = other_step i l st.
Proof. unfold step; now intros ->. Qed.

(** The block a comment line leaves open: its line range. *)
Lemma doc_step_current (i : nat) (l : string) (st : scan_state) :
  exists b,
    st_current_block (doc_step i l st) = Some b /\
    end_line b = i /\
    start_line b = match st_current_block st with
                   | Some b0 => start_line b0
                   | None => i
                   end.
Proof.
  unfold doc_step. eexists; split; [reflexivity|].
  destruct (st_current_block st) as [b0|];
    repeat match goal with |- context [if ?c then _ else _] => destruct c end;
    simpl; auto.
Qed.

Lemma doc_step_blocks (i : nat) (l : string) (st : scan_state) :
  st_blocks (doc_step i l st) = st_blocks st.
Proof. reflexivity. Qed.

(** A step appends at most one block, and only on a declaration line. *)
Lemma step_blocks (i : nat) (l : string) (st : scan_state) :
  st_blocks (step i l st) = st_blocks st \/
  (is_doc_line l = false /\ is_member_line l = true /\
   exists b, st_current_block st = Some b /\
     st_blocks (step i l st) = (st_blocks st ++ [set_member_line i b])%list).
Proof.
  unfold step. destruct (is_doc_line l) eqn:Hd; [now left|].
  unfold other_step; simpl.
  destruct (st_current_block st) as [b|]; [|now left].
  destruct (is_member_line l) eqn:Hm; [|now left].
  right; repeat split; eauto.
Qed.

(** The blocks already pushed play no part in what the loop does next. *)
Lemma step_frame (i : nat) (l : string) (st : scan_state) :
  let st0 := mkScan [] (st_current_block st) (st_in_code st)
               (st_code_content st) in
  step i l st =
  mkScan (st_blocks st ++ st_blocks (step i l st0))%list
         (st_current_block (step i l st0))
         (st_in_code (step i l st0)) (st_code_content (step i l st0)).
Proof.
  destruct st as [bs cur ic cc]; simpl.
  unfold step. destruct (is_doc_line l).
  - unfold doc_step; simpl. now rewrite app_nil_r.
  - unfold other_step; simpl.
    destruct cur; [destruct (is_member_line l)|]; simpl;
      now rewrite ?app_nil_r.
Qed.

Lemma scan_frame (i : nat) (ls : list string) (bs : list XmlDocBlock)
    (cur : option XmlDocBlock) (ic : bool) (cc : list string) :
  st_blocks (scan i ls (mkScan bs cur ic cc)) =
  (bs ++ st_blocks (scan i ls (mkScan [] cur ic cc)))%list.
Proof.
  revert i bs cur ic cc; induction ls as [|l ls IH]; intros; simpl.
  - now rewrite app_nil_r.
  - rewrite (step_frame i l (mkScan bs cur ic cc)); simpl.
    rewrite IH.
    destruct (step i l (mkScan [] cur ic cc)) as [bs1 cur1 ic1 cc1] eqn:E;
      simpl.
    rewrite (IH (S i) bs1). now rewrite app_assoc.
Qed.

(** Scanning comment lines pushes nothing. *)
Lemma scan_docs_blocks (i : nat) (run : list string) (st : scan_state) :
  Forall (fun l => is_doc_line l = true) run ->
  st_blocks (scan i run st) = st_blocks st.
Proof.
  intros H; revert i st; induction H as [|l run Hl _ IH]; intros; simpl; auto.
  rewrite IH, step_doc by assumption. reflexivity.
Qed.

(** Any line that is not a comment line closes the run. *)
Lemma other_step_closed (i : nat) (l : string) (st : scan_state) :
  st_current_block (other_step i l st) = None /\
  st_in_code (other_step i l st) = false /\
  st_code_content (other_step i l st) = [].
Proof. now unfold other_step. Qed.

End ScanFacts.

(* ------------------------------------------------------------------ *)
(** ** Sticky summary flag *)

Lemma doc_step_summary_sticky (i : nat) (l : string) (st : scan_state)
    (b : XmlDocBlock) :
  st_current_block st = Some b -> has_summary b = true ->
  exists b', st_current_block (doc_step i l st) = Some b' /\
             has_summary b' = true.
Proof.
  intros Hc Hs. unfold doc_step. rewrite Hc.
  eexists; split; [reflexivity|].
  simpl. rewrite Hs.
  repeat match goal with |- context [if ?c then _ else _] => destruct c end;
    simpl; auto.
Qed.

(** C5. Within one comment run, once [has_summary] is true it is true
    after every later line of the run, whatever the lines contain. *)
Theorem summary_flag_sticky (i : nat) (run : list string) (st : scan_state)
    (b : XmlDocBlock) :
  Forall (fun l => is_doc_line l = true) run ->
  st_current_block st = Some b -> has_summary b = true ->
  exists b', st_current_block (scan i run st) = Some b' /\
             has_summary b' = true.
Proof.
  intros H; revert i st b; induction H as [|l run Hl _ IH]; intros i st b Hc Hs.
  - simpl; eauto.
  - simpl. rewrite step_doc by assumption.
    destruct (doc_step_summary_sticky i l st b Hc Hs) as (b1 & Hc1 & Hs1).
    eapply IH; eauto.
Qed.

(* ------------------------------------------------------------------ *)
(** ** Line numbers of the blocks *)

Lemma StronglySorted_snoc {A : Type} (R : A -> A -> Prop) (l : list A) (x : A) :
  StronglySorted R l -> Forall (fun a => R a x) l ->
  StronglySorted R (l ++ [x]).
Proof.
  induction 1 as [|a l Hs IH Ha]; intros Hx; simpl.
  - constructor; constructor.
  - inversion Hx; subst. constructor; auto.
    apply Forall_app; split; auto.
Qed.

Lemma scan_inv_init (i : nat) : scan_inv i scan_init.
Proof.
  constructor; simpl; try (now constructor); intros; discriminate.
Qed.

Lemma scan_inv_step (i : nat) (l : string) (st : scan_state) :
  scan_inv i st -> scan_inv (S i) (step i l st).
Proof.
  intros [Hr Hb Hs Hc]. unfold step. destruct (is_doc_line l).
  - constructor; rewrite ?doc_step_blocks; auto.
    + eapply Forall_impl; [|exact Hb]. simpl; intros; lia.
    + intros b Hcur.
      destruct (doc_step_current i l st) as (b' & E & He & Hst).
      rewrite E in Hcur; inversion Hcur; subst b'; clear Hcur.
      rewrite He, Hst.
      destruct (st_current_block st) as [b0|] eqn:E0.
      * destruct (Hc b0 eq_refl) as (H1 & H2 & H3). repeat split; auto; lia.
      * repeat split; auto.
  - unfold other_step.
    destruct (st_current_block st) as [b|] eqn:E0;
      [destruct (is_member_line l)|]; simpl.
    + destruct (Hc b eq_refl) as (H1 & H2 & H3).
      constructor; simpl.
      * apply Forall_app; split; auto. constructor; [|constructor].
        unfold block_range_ok; simpl; lia.
      * apply Forall_app; split.
        -- eapply Forall_impl; [|exact Hb]. simpl; intros; lia.
        -- constructor; [simpl; lia|constructor].
      * apply StronglySorted_snoc; auto.
      * intros b' Hb'; discriminate.
    + constructor; simpl; auto.
      * eapply Forall_impl; [|exact Hb]. simpl; intros; lia.
      * intros b' Hb'; discriminate.
    + constructor; simpl; auto.
      * eapply Forall_impl; [|exact Hb]. simpl; intros; lia.
      * intros b' Hb'; discriminate.
Qed.

Lemma scan_inv_scan (i : nat) (ls : list string) (st : scan_state) :
  scan_inv i st -> scan_inv (i + List.length ls) (scan i ls st).
Proof.
  revert i st; induction ls as [|l ls IH]; intros i st H; simpl.
  - now rewrite Nat.add_0_r.
  - replace (i + S (List.length ls)) with (S i + List.length ls) by lia.
    apply IH, scan_inv_step, H.
Qed.

Lemma extract_lines_range (ls : list string) :
  Forall block_range_ok (extract_lines ls).
Proof.
  unfold extract_lines.
  now destruct (scan_inv_scan 1 ls scan_init (scan_inv_init 1)).
Qed.

Lemma extract_lines_sorted (ls : list string) :
  StronglySorted (fun a b => member_line a < start_line b) (extract_lines ls).
Proof.
  unfold extract_lines.
  now destruct (scan_inv_scan 1 ls scan_init (scan_inv_init 1)).
Qed.

(** C9. The blocks come out in file order: each block has
    start line <= end line < declaration line, and start lines increase
    strictly along the output. *)
Theorem blocks_in_file_order (content : string) :
  Forall (fun b => start_line b <= end_line b /\ end_line b < member_line b)
         (extract_xml_doc_blocks content) /\
  StronglySorted (fun a b => start_line a < start_line b)
         (extract_xml_doc_blocks content).
Proof.
  unfold extract_xml_doc_blocks.
  pose proof (extract_lines_range (split_nl content)) as Hr.
  pose proof (extract_lines_sorted (split_nl content)) as Hs.
  split; [exact Hr|].
  revert Hr Hs. generalize (extract_lines (split_nl content)).
  induction l as [|a l IH]; intros Hr Hs; [constructor|].
  inversion Hr as [|? ? Ha Hr']; inversion Hs as [|? ? Hs' Hall]; subst.
  constructor; auto.
  eapply Forall_impl; [|exact Hall].
  intros b Hb; simpl in *. destruct Ha; lia.
Qed.

(* ------------------------------------------------------------------ *)
(** ** Blocks and declaration lines *)

Lemma scan_blocks_count (i : nat) (ls : list string) (st : scan_state) :
  List.length (st_blocks (scan i ls st)) <=
  List.length (st_blocks st) + count_member_lines ls.
Proof.
  revert i st; induction ls as [|l ls IH]; intros i st; simpl; [lia|].
  specialize (IH (S i) (step i l st)).
  unfold count_member_lines in *; simpl.
  destruct (step_blocks i l st) as [E | (_ & Hm & b & _ & E)].
  - rewrite E in IH. destruct (is_member_line l); simpl; lia.
  - rewrite E, length_app in IH; simpl in IH. rewrite Hm; simpl. lia.
Qed.

(** After a line that is not a comment line, the output so far is kept and
    the rest of the file is read with no run open. *)
Lemma scan_after_other (i : nat) (l : string) (post : list string)
    (st : scan_state) :
  is_doc_line l = false ->
  st_blocks (scan i (l :: post) st) =
  (st_blocks (step i l st) ++ blocks_from (S i) post)%list.
Proof.
  intros Hd; simpl. rewrite step_other by assumption.
  destruct (other_step_closed i l st) as (Hc & Hi & Hcc).
  destruct (other_step i l st) as [bs cur ic cc] eqn:E; simpl in *; subst.
  apply scan_frame.
Qed.

(** A run that reaches the end of the file is dropped. *)
Lemma run_at_eof_dropped (pre run : list string) :
  Forall (fun l => is_doc_line l = true) run ->
  extract_lines (pre ++ run) = extract_lines pre.
Proof.
  intros H. unfold extract_lines. rewrite scan_app.
  now apply scan_docs_blocks.
Qed.

(** A run followed by a line that is neither a comment nor a recognised
    declaration is dropped. *)
Lemma run_before_other_dropped (pre run post : list string) (l : string) :
  Forall (fun l => is_doc_line l = true) run ->
  is_doc_line l = false -> is_member_line l = false ->
  extract_lines (pre ++ run ++ l :: post) =
  (extract_lines pre ++
   blocks_from (List.length pre + List.length run + 2) post)%list.
Proof.
  intros Hrun Hd Hm. unfold extract_lines.
  rewrite !scan_app, scan_after_other by assumption.
  replace (S (1 + List.length pre + List.length run))
    with (List.length pre + List.length run + 2) by lia.
  f_equal.
  destruct (step_blocks (1 + List.length pre + List.length run) l
              (scan (1 + List.length pre) run (scan 1 pre scan_init)))
    as [E | (_ & Hm' & _)]; [|congruence].
  rewrite E. now apply scan_docs_blocks.
Qed.

(** C6. The extractor returns at most as many blocks as the text has lines
    matching the declaration patterns; a run still open at the end of the
    text, and a run followed by a line that is neither a comment nor a
    declaration, add no block: the output is that of the lines before the
    run, followed by that of the lines after it. *)
Theorem blocks_bounded_by_declarations (content : string) :
  List.length (extract_xml_doc_blocks content)
    <= count_member_lines (split_nl content) /\
  (forall pre run,
     split_nl content = (pre ++ run)%list ->
     Forall (fun l => is_doc_line l = true) run ->
     extract_xml_doc_blocks content = extract_lines pre) /\
  (forall pre run l post,
     split_nl content = (pre ++ run ++ l :: post)%list ->
     Forall (fun l => is_doc_line l = true) run ->
     is_doc_line l = false -> is_member_line l = false ->
     extract_xml_doc_blocks content =
     (extract_lines pre ++
      blocks_from (List.length pre + List.length run + 2) post)%list).
Proof.
  unfold extract_xml_doc_blocks. repeat split.
  - apply (scan_blocks_count 1 (split_nl content) scan_init).
  - intros pre run E H. rewrite E. now apply run_at_eof_dropped.
  - intros pre run l post E H Hd Hm. rewrite E.
    now apply run_before_other_dropped.
Qed.

(* ================================================================== *)
(** * The policy checker *)

(** The five placeholder patterns have five different names, so a warning
    identifies its pattern. *)
Lemma placeholder_names_distinct :
  NoDup (map MSG_PLACEHOLDER PLACEHOLDER_PATTERNS).
Proof.
  vm_compute.
  repeat (constructor; [simpl; intuition discriminate|]). constructor.
Qed.

Lemma check_block_rule3 (path : string) (b : XmlDocBlock) :
  has_summary b = true -> has_example b = true -> has_code_csharp b = true ->
  check_block path b =
    map (placeholder_warning path b)
        (filter (matches_placeholder (code_content b)) PLACEHOLDER_PATTERNS).
Proof. unfold check_block; now intros -> -> ->. Qed.

Lemma warnings_distinct (path : string) (b : XmlDocBlock) (ps : list regex) :
  NoDup (map MSG_PLACEHOLDER ps) ->
  NoDup (map message
           (map (placeholder_warning path b)
                (filter (matches_placeholder (code_content b)) ps))).
Proof.
  rewrite map_map; simpl.
  induction ps as [|p ps IH]; simpl; intros Hnd; [constructor|].
  inversion Hnd as [|? ? Hnotin Hnd']; subst.
  destruct (matches_placeholder (code_content b) p); simpl; auto.
  constructor; auto.
  intros Hin; apply Hnotin.
  apply in_map_iff in Hin; destruct Hin as (q & Eq & Hq).
  apply filter_In in Hq; destruct Hq as (Hq & _).
  apply in_map_iff; eauto.
Qed.

(** C1. For a file that was read, the diagnostics are those of its blocks,
    block after block, and each block is judged by the first rule it
    fails: no summary gives exactly one error at the start line and
    nothing else; a summary but no example or no tagged code gives exactly
    one error at the start line and no warning; otherwise there is no error
    and one warning at the start line for each placeholder pattern found in
    the code text, named after that pattern. *)
Theorem policy_first_failure_wins (fs : filesystem) (path content : string) :
  fs path = ReadOk content ->
  validate_file fs path =
    flat_map (check_block path) (extract_xml_doc_blocks content) /\
  forall b : XmlDocBlock,
    (has_summary b = false ->
       check_block path b =
         [mkDocIssue path (start_line b) "error" MSG_SUMMARY]) /\
    (has_summary b = true ->
     has_example b = false \/ has_code_csharp b = false ->
       check_block path b =
         [mkDocIssue path (start_line b) "error" MSG_EXAMPLE]) /\
    (has_summary b = true -> has_example b = true ->
     has_code_csharp b = true ->
       check_block path b =
         map (placeholder_warning path b)
             (filter (matches_placeholder (code_content b))
                     PLACEHOLDER_PATTERNS) /\
       NoDup (map message (check_block path b))).
Proof.
  intros Hread. split.
  - unfold validate_file. now rewrite Hread.
  - intros b. split; [|split].
    + unfold check_block. now intros ->.
    + unfold check_block. intros -> [-> | ->]; simpl; auto.
      now rewrite orb_true_r.
    + intros Hs He Hc. rewrite (check_block_rule3 path b Hs He Hc).
      split; [reflexivity|].
      apply warnings_distinct, placeholder_names_distinct.
Qed.

(* ================================================================== *)
(** * Files that cannot be read *)

Lemma fold_count_issue (ds : list DocIssue) (r : report) :
  printed (fold_left count_issue ds r) = (printed r ++ ds)%list /\
  files_scanned (fold_left count_issue ds r) = files_scanned r.
Proof.
  revert r; induction ds as [|d ds IH]; intros r; simpl.
  - now rewrite app_nil_r.
  - destruct (IH (count_issue r d)) as (E1 & E2). rewrite E1, E2.
    unfold count_issue; destruct (String.eqb (issue_type d) "error"); simpl;
      now rewrite <- app_assoc.
Qed.

Lemma fold_count_file (fs : filesystem) (files : list string) (r : report) :
  printed (fold_left (count_file fs) files r) =
    (printed r ++ flat_map (validate_file fs) files)%list /\
  files_scanned (fold_left (count_file fs) files r) =
    files_scanned r + List.length files.
Proof.
  revert r; induction files as [|f files IH]; intros r; simpl.
  - now rewrite app_nil_r, Nat.add_0_r.
  - destruct (IH (count_file fs r f)) as (E1 & E2). rewrite E1, E2.
    unfold count_file.
    match goal with |- context [fold_left count_issue ?ds ?r0] =>
      destruct (fold_count_issue ds r0) as (F1 & F2) end.
    rewrite F1, F2; simpl. rewrite <- app_assoc. split; [reflexivity|lia].
Qed.

(** C8. When the content of a file cannot be read, the file gets exactly
    one diagnostic: an error at line 0 whose message carries the cause, and
    nothing about blocks.  The files before and after it in the run are
    validated as usual. *)
Theorem read_failure_isolated (fs : filesystem) (path e : string) :
  fs path = ReadError e ->
  validate_file fs path =
    [mkDocIssue path 0 "error" ("Could not read file: " ++ e)] /\
  forall before after : list string,
    printed (run_files fs (before ++ path :: after)) =
      (flat_map (validate_file fs) before ++
       mkDocIssue path 0 "error" ("Could not read file: " ++ e) ::
       flat_map (validate_file fs) after)%list /\
    files_scanned (run_files fs (before ++ path :: after)) =
      List.length before + 1 + List.length after.
Proof.
  intros Hread.
  assert (Hv : validate_file fs path =
               [mkDocIssue path 0 "error" ("Could not read file: " ++ e)]).
  { unfold validate_file. now rewrite Hread. }
  split; [exact Hv|]. intros before after. unfold run_files.
  destruct (fold_count_file fs (before ++ path :: after) report_init)
    as (E1 & E2).
  rewrite E1, E2; simpl. rewrite flat_map_app; simpl. rewrite Hv; simpl.
  split; [reflexivity|]. rewrite length_app; simpl. lia.
Qed.

(* ================================================================== *)
(** * What a match says about the text *)

Section Strings.

Lemma append_nil_r (s : string) : s ++ "" = s.
Proof. induction s; simpl; congruence. Qed.

Lemma append_assoc (a b c : string) : (a ++ b) ++ c = a ++ (b ++ c).
Proof. induction a; simpl; congruence. Qed.

Lemma prefix_nil (s : string) : prefix "" s = true.
Proof. now destruct s. Qed.

Lemma prefix_append (p s : string) : prefix p (p ++ s) = true.
Proof.
  induction p as [|c p IH]; simpl; [apply prefix_nil|].
  destruct (ascii_dec c c); [exact IH|congruence].
Qed.

Lemma prefix_split (p s : string) :
  prefix p s = true -> exists t, s = p ++ t.
Proof.
  revert s; induction p as [|c p IH]; intros s H.
  - now exists s.
  - destruct s as [|d s]; simpl in H; [discriminate|].
    destruct (ascii_dec c d); [subst|discriminate].
    destruct (IH s H) as (t & ->). now exists t.
Qed.

Lemma prefix_trans_append (p s t : string) :
  prefix p s = true -> prefix p (s ++ t) = true.
Proof.
  intros H. destruct (prefix_split p s H) as (u & ->).
  rewrite append_assoc. apply prefix_append.
Qed.

Lemma contains_here (x s : string) : prefix x s = true -> contains x s = true.
Proof. intros H. destruct s; simpl in *; now rewrite H. Qed.

Lemma contains_cons (x s : string) (c : ascii) :
  contains x s = true -> contains x (String c s) = true.
Proof. intros H. simpl. rewrite H. apply orb_true_r. Qed.

Lemma contains_app_r (x a s : string) :
  contains x s = true -> contains x (a ++ s) = true.
Proof. induction a; simpl; auto. intros H. rewrite (IHa H). apply orb_true_r. Qed.

End Strings.

Lemma star_c_sound (p : ascii -> bool) (k : cont) (pos : nat) (s : string)
    (g : caps) (m : caps) :
  star_c p k pos s g = Some m ->
  exists w s' pos', s = w ++ s' /\ allb p w = true /\ k pos' s' g = Some m.
Proof.
  revert pos; induction s as [|a s IH]; intros pos H; simpl in H.
  - exists "", "", pos; auto.
  - destruct (p a) eqn:Hp.
    + destruct (star_c p k (S pos) s g) as [m'|] eqn:E.
      * inversion H; subst m'.
        destruct (IH _ E) as (w & s' & pos' & -> & Hw & Hk).
        exists (String a w), s', pos'; simpl. now rewrite Hp, Hw.
      * exists "", (String a s), pos; auto.
    + exists "", (String a s), pos; auto.
Qed.

(** Whenever the matcher succeeds, the pattern consumed some prefix of the
    text and the continuation succeeded on what was left. *)
Lemma bt_sound (icase : bool) (r : regex) :
  forall (n : nat) (k : cont) (pos : nat) (s : string) (g m : caps),
  bt icase r n k pos s g = Some m ->
  exists pos' s' g', den icase r s s' /\ k pos' s' g' = Some m.
Proof.
  induction r as [|c|c|c|r IH|r1 IH1 r2 IH2|r1 IH1 r2 IH2|r IH|r IH| |];
    intros n k pos s g m H; simpl in H.
  - exists pos, s, g; simpl; auto.
  - destruct s as [|a s]; [discriminate|].
    destruct (cset_mem icase c a) eqn:E; [|discriminate].
    exists (S pos), s, g; simpl; eauto.
  - destruct (star_c_sound _ _ _ _ _ _ H) as (w & s' & pos' & -> & Hw & Hk).
    exists pos', s', g; simpl; eauto.
  - destruct s as [|a s]; [discriminate|].
    destruct (cset_mem icase c a) eqn:E; [|discriminate].
    destruct (star_c_sound _ _ _ _ _ _ H) as (w & s' & pos' & -> & Hw & Hk).
    exists pos', s', g; simpl; eauto 6.
  - destruct (bt icase r n k pos s g) as [m'|] eqn:E.
    + inversion H; subst m'.
      destruct (IH _ _ _ _ _ _ E) as (pos' & s' & g' & Hd & Hk).
      exists pos', s', g'; simpl; auto.
    + exists pos, s, g; simpl; auto.
  - destruct (IH1 _ _ _ _ _ _ H) as (p1 & s1 & g1 & Hd1 & Hk1).
    destruct (IH2 _ _ _ _ _ _ Hk1) as (p2 & s2 & g2 & Hd2 & Hk2).
    exists p2, s2, g2; simpl; eauto.
  - destruct (bt icase r1 n k pos s g) as [m'|] eqn:E.
    + inversion H; subst m'.
      destruct (IH1 _ _ _ _ _ _ E) as (pos' & s' & g' & Hd & Hk).
      exists pos', s', g'; simpl; auto.
    + destruct (IH2 _ _ _ _ _ _ H) as (pos' & s' & g' & Hd & Hk).
      exists pos', s', g'; simpl; auto.
  - destruct (IH _ _ _ _ _ _ H) as (pos' & s' & g' & Hd & Hk).
    eexists _, _, _; simpl; eauto.
  - destruct (IH _ _ _ _ _ _ H) as (pos' & s' & g' & Hd & Hk).
    exists pos', s', g'; simpl; auto.
  - destruct (pos =? 0); [|discriminate]. exists pos, s, g; simpl; auto.
  - destruct s as [|a [|b s]]; try discriminate.
    + exists pos, "", g; simpl; auto.
    + destruct (Ascii.eqb a nl) eqn:E; [|discriminate].
      apply Ascii.eqb_eq in E; subst a.
      exists pos, (String nl ""), g; simpl; auto.
Qed.

(** A pattern that starts with [^] can only be found at the first
    character. *)
Lemma search_from_bol (icase : bool) (r : regex) (pos : nat) (s : string) :
  search_from icase (Cat Bol r) (S pos) s = None.
Proof.
  revert pos; induction s as [|a s IH]; intros pos; simpl; auto.
Qed.

Lemma search_bol (icase : bool) (r : regex) (s : string) :
  search icase (Cat Bol r) s = bt icase r 0 accept 0 s [].
Proof.
  unfold search. destruct s as [|a s]; simpl.
  - now destruct (bt icase r 0 accept 0 "" []).
  - rewrite search_from_bol.
    now destruct (bt icase r 0 accept 0 (String a s) []).
Qed.

Lemma search_bol_den (r : regex) (s : string) :
  is_match (search false (Cat Bol r) s) = true ->
  exists s', den false r s s'.
Proof.
  rewrite search_bol.
  destruct (bt false r 0 accept 0 s []) as [m|] eqn:E; [|discriminate].
  intros _. destruct (bt_sound _ _ _ _ _ _ _ _ E) as (_ & s' & _ & Hd & _).
  eauto.
Qed.

Lemma first_match_exists (ps : list regex) (l : string) :
  first_match ps l = true ->
  exists p, In p ps /\ is_match (search false p l) = true.
Proof.
  induction ps as [|p ps IH]; simpl; [discriminate|].
  destruct (is_match (search false p l)) eqn:E.
  - intros _; exists p; auto.
  - intros H; destruct (IH H) as (q & Hq & Hm); eauto.
Qed.

(* ================================================================== *)
(** * The declaration patterns *)

Lemma member_patterns_shape :
  MEMBER_PATTERNS = map with_head MEMBER_TAILS.
Proof. reflexivity. Qed.

Lemma prefix_cons (c : ascii) (x s : string) :
  prefix (String c x) (String c s) = prefix x s.
Proof. simpl. destruct (ascii_dec c c); congruence. Qed.

Ltac den_inv :=
  repeat match goal with
  | H : exists _, _ |- _ => destruct H
  | H : _ /\ _ |- _ => destruct H
  | H : _ \/ _ |- _ => destruct H
  | H : Ascii.eqb _ _ = true |- _ => apply Ascii.eqb_eq in H
  end; subst.

Ltac find_sub :=
  solve [ repeat first
    [ solve [apply contains_here; rewrite ?prefix_cons; apply prefix_nil]
    | apply contains_cons
    | apply contains_app_r ] ].

Ltac find_mark :=
  unfold has_decl_mark, DECL_MARKS; cbn [existsb];
  repeat first
    [ match goal with |- (?a || _)%bool = true =>
        replace a with true by (symmetry; find_sub); reflexivity end
    | match goal with |- (_ || ?b)%bool = true =>
        apply orb_true_iff; right end ].

Lemma has_decl_mark_app (a s : string) :
  has_decl_mark s = true -> has_decl_mark (a ++ s) = true.
Proof.
  unfold has_decl_mark. rewrite !existsb_exists.
  intros (x & Hx & Hc). exists x; split; auto. now apply contains_app_r.
Qed.

Lemma has_decl_mark_cons (c : ascii) (s : string) :
  has_decl_mark s = true -> has_decl_mark (String c s) = true.
Proof. apply (has_decl_mark_app (String c "")). Qed.

Lemma tail_has_mark (t : list regex) (s s' : string) :
  In t MEMBER_TAILS -> den false (cats t) s s' -> has_decl_mark s = true.
Proof.
  unfold MEMBER_TAILS. intros Hin Hd.
  repeat (destruct Hin as [<- | Hin]);
    try (cbn [den cats alts lit static_opt readonly_opt operator_kw cset_mem] in Hd;
         den_inv; find_mark).
  contradiction.
Qed.

Lemma den_visibility (s s' : string) :
  den false visibility s s' ->
  exists c t, s = String c t /\ (c = "p"%char \/ c = "i"%char).
Proof.
  unfold visibility.
  cbn [den cats alts lit cset_mem]. intros H. den_inv; eauto.
Qed.

Lemma is_member_line_den (l : string) :
  is_member_line l = true ->
  exists t w s1 s2 s3 s',
    In t MEMBER_TAILS /\ l = w ++ s1 /\ allb isspace w = true /\
    den false visibility s1 s2 /\ den false (Plus Space) s2 s3 /\
    den false (cats t) s3 s'.
Proof.
  unfold is_member_line. rewrite member_patterns_shape. intros H.
  destruct (first_match_exists _ _ H) as (p & Hp & Hm).
  apply in_map_iff in Hp; destruct Hp as (t & <- & Ht).
  unfold with_head in Hm.
  destruct (search_bol_den _ _ Hm) as (s' & Hd).
  destruct Hd as (s1 & (w & -> & Hw) & s2 & Hv & s3 & Hp & Hd).
  exists t, w, s1, s2, s3, s'. repeat split; auto.
Qed.

(** A line the patterns recognise holds a parenthesis, a brace, a type
    keyword or the operator keyword. *)
Lemma member_line_has_mark (l : string) :
  is_member_line l = true -> has_decl_mark l = true.
Proof.
  intros H.
  destruct (is_member_line_den l H)
    as (t & w & s1 & s2 & s3 & s' & Ht & -> & Hw & Hv & Hp & Hd).
  apply has_decl_mark_app.
  pose proof (tail_has_mark t s3 s' Ht Hd) as Hmark.
  clear Hd Ht. unfold visibility in Hv.
  cbn [den cats alts lit cset_mem] in Hv, Hp. den_inv;
    repeat first [apply has_decl_mark_cons | apply has_decl_mark_app];
    exact Hmark.
Qed.

(** A line the patterns recognise starts, after its indentation, with a
    visibility keyword. *)
Lemma member_line_head (l : string) :
  is_member_line l = true ->
  exists w c t, l = w ++ String c t /\ allb isspace w = true /\
                (c = "p"%char \/ c = "i"%char).
Proof.
  intros H.
  destruct (is_member_line_den l H)
    as (t & w & s1 & s2 & s3 & s' & _ & -> & Hw & Hv & _).
  destruct (den_visibility _ _ Hv) as (c & u & -> & Hc).
  exists w, c, u; auto.
Qed.

Lemma lstrip_spaces (w s : string) :
  allb isspace w = true -> lstrip (w ++ s) = lstrip s.
Proof.
  induction w as [|c w IH]; simpl; auto.
  intros H; apply andb_true_iff in H; destruct H as (Hc & Hw).
  rewrite Hc. auto.
Qed.

Lemma rstrip_head (c : ascii) (s : string) :
  isspace c = false -> exists r, rstrip (String c s) = String c r.
Proof.
  intros Hc. simpl. destruct (rstrip s); rewrite ?Hc; eauto.
Qed.

Lemma strip_member_line (l : string) :
  is_member_line l = true ->
  exists c r, strip l = String c r /\ (c = "p"%char \/ c = "i"%char).
Proof.
  intros H. destruct (member_line_head l H) as (w & c & t & -> & Hw & Hc).
  unfold strip. rewrite lstrip_spaces by assumption.
  assert (Hs : isspace c = false) by (destruct Hc; subst; reflexivity).
  simpl lstrip. rewrite Hs.
  destruct (rstrip_head c t Hs) as (r & ->). eauto.
Qed.

(** A recognised declaration line is never a comment line. *)
Lemma member_line_not_doc (l : string) :
  is_member_line l = true -> is_doc_line l = false.
Proof.
  intros H. destruct (strip_member_line l H) as (c & r & E & Hc).
  unfold is_doc_line, startswith, DOC_MARKER. rewrite E.
  destruct Hc; subst; reflexivity.
Qed.

(** A blank line is neither a comment line nor a declaration line. *)
Lemma blank_line_other (l : string) :
  strip l = "" -> is_doc_line l = false /\ is_member_line l = false.
Proof.
  intros E. split.
  - unfold is_doc_line. now rewrite E.
  - destruct (is_member_line l) eqn:H; auto.
    destruct (strip_member_line l H) as (c & r & E' & _). congruence.
Qed.

(* ================================================================== *)
(** * Runs and the line that follows them *)

Lemma scan_member_lower (j i : nat) (ls : list string) (st : scan_state) :
  j <= i ->
  Forall (fun b => j <= member_line b) (st_blocks st) ->
  Forall (fun b => j <= member_line b) (st_blocks (scan i ls st)).
Proof.
  revert i st; induction ls as [|l ls IH]; intros i st Hj H; simpl; auto.
  apply IH; [lia|].
  destruct (step_blocks i l st) as [E | (_ & _ & b & _ & E)]; rewrite E; auto.
  apply Forall_app; split; auto.
Qed.

Lemma scan_start_lower (j i : nat) (ls : list string) (st : scan_state) :
  j <= i ->
  Forall (fun b => j <= start_line b) (st_blocks st) ->
  (forall b, st_current_block st = Some b -> j <= start_line b) ->
  Forall (fun b => j <= start_line b) (st_blocks (scan i ls st)).
Proof.
  revert i st; induction ls as [|l ls IH]; intros i st Hj H Hc; simpl; auto.
  apply IH; [lia| |].
  - destruct (step_blocks i l st) as [E | (_ & _ & b & Hb & E)]; rewrite E; auto.
    apply Forall_app; split; auto.
    constructor; [simpl; now apply Hc|constructor].
  - unfold step. destruct (is_doc_line l).
    + intros b Hb. destruct (doc_step_current i l st) as (b' & E & _ & Hs).
      rewrite E in Hb; inversion Hb; subst b'. rewrite Hs.
      destruct (st_current_block st); auto.
    + intros b Hb. discriminate.
Qed.

Lemma blocks_from_lower (i : nat) (ls : list string) :
  Forall (fun b => i <= start_line b /\ i <= member_line b)
         (blocks_from i ls).
Proof.
  unfold blocks_from.
  pose proof (scan_member_lower i i ls scan_init (le_n i) (Forall_nil _)) as H1.
  assert (H2 : Forall (fun b => i <= start_line b)
                      (st_blocks (scan i ls scan_init))).
  { apply scan_start_lower; auto. simpl. discriminate. }
  rewrite Forall_forall in *. auto.
Qed.

Lemma extract_lines_upper (ls : list string) :
  Forall (fun b => start_line b < member_line b /\
                   member_line b <= List.length ls)
         (extract_lines ls).
Proof.
  unfold extract_lines.
  destruct (scan_inv_scan 1 ls scan_init (scan_inv_init 1)) as [Hr Hb _ _].
  rewrite Forall_forall in *. intros b Hin.
  specialize (Hr b Hin); specialize (Hb b Hin).
  unfold block_range_ok in Hr. simpl in Hb. lia.
Qed.

(** After a non-empty sequence of comment lines a block is open, and it
    ends on the last of them. *)
Lemma scan_docs_current (i : nat) (run : list string) (st : scan_state) :
  run <> [] -> Forall (fun l => is_doc_line l = true) run ->
  exists b, st_current_block (scan i run st) = Some b /\
            end_line b + 1 = i + List.length run.
Proof.
  intros Hne H; revert i st Hne.
  induction H as [|l run Hl Hrun IH]; intros i st Hne; [congruence|].
  simpl. rewrite step_doc by assumption.
  destruct run as [|l' run'].
  - simpl. destruct (doc_step_current i l st) as (b & E & He & _).
    exists b; split; auto; lia.
  - destruct (IH (S i) (doc_step i l st)) as (b & E & He); [discriminate|].
    exists b; split; auto; simpl in *; lia.
Qed.

(** A run followed by a recognised declaration line is pushed, with that
    line's number. *)
Lemma run_before_member_pushed (pre run post : list string) (l : string) :
  run <> [] -> Forall (fun l => is_doc_line l = true) run ->
  is_member_line l = true ->
  exists b,
    st_current_block (scan (1 + List.length pre) run (scan 1 pre scan_init))
      = Some b /\
    end_line b = List.length pre + List.length run /\
    extract_lines (pre ++ run ++ l :: post) =
    (extract_lines pre ++
     set_member_line (List.length pre + List.length run + 1) b ::
     blocks_from (List.length pre + List.length run + 2) post)%list.
Proof.
  intros Hne Hrun Hm.
  pose proof (member_line_not_doc l Hm) as Hd.
  destruct (scan_docs_current (1 + List.length pre) run
              (scan 1 pre scan_init) Hne Hrun) as (b & Hb & He).
  exists b; split; [exact Hb|]. split; [lia|].
  unfold extract_lines.
  rewrite !scan_app, scan_after_other by assumption.
  replace (S (1 + List.length pre + List.length run))
    with (List.length pre + List.length run + 2) by lia.
  rewrite step_other by assumption. unfold other_step.
  rewrite Hb, Hm. cbn [st_blocks].
  rewrite scan_docs_blocks by assumption.
  rewrite <- app_assoc. simpl.
  replace (S (List.length pre + List.length run))
    with (List.length pre + List.length run + 1) by lia.
  reflexivity.
Qed.

(** Lines that are not comment lines, read with no run open, push nothing
    and leave no run open. *)
Lemma scan_others_closed (i : nat) (ls : list string) :
  Forall (fun l => is_doc_line l = false) ls ->
  scan i ls scan_init = scan_init.
Proof.
  intros H; revert i; induction H as [|l ls Hl _ IH]; intros i; simpl; auto.
  rewrite step_other by assumption. apply IH.
Qed.

Lemma blocks_from_skip (i : nat) (others post : list string) :
  Forall (fun l => is_doc_line l = false) others ->
  blocks_from i (others ++ post) = blocks_from (i + List.length others) post.
Proof.
  intros H. unfold blocks_from. rewrite scan_app.
  now rewrite scan_others_closed.
Qed.

Lemma check_block_line (path : string) (b : XmlDocBlock) (d : DocIssue) :
  In d (check_block path b) -> line d = start_line b.
Proof.
  unfold check_block.
  destruct (negb (has_summary b));
    [|destruct (negb (has_example b) || negb (has_code_csharp b))%bool].
  - intros [<- | []]; reflexivity.
  - intros [<- | []]; reflexivity.
  - intros H. apply in_map_iff in H. destruct H as (p & <- & _). reflexivity.
Qed.

(* ------------------------------------------------------------------ *)
(** ** Which runs become blocks *)

(** C2 as stated fails: the comment run in front of the public field
    [public int Count;] is not finalized, the extractor returns nothing. *)
Lemma field_declaration_not_finalized :
  split_nl field_example =
    ["/// <summary>The count.</summary>"; "public int Count;"] /\
  is_doc_line "/// <summary>The count.</summary>" = true /\
  is_doc_line "public int Count;" = false /\
  is_member_line "public int Count;" = false /\
  extract_xml_doc_blocks field_example = [].
Proof. vm_compute. repeat split. Qed.

(** C2, amended. A comment run followed by a line that is not a comment
    is finalized into a block, carrying that line's number, exactly when
    the line matches one of the eleven declaration patterns; and every
    line they match holds an opening parenthesis, an opening brace, one of
    the keywords class, struct, interface, enum, or the keyword operator.
    So methods, properties, types and operators are covered, and a field
    written without any of these is not. *)
Theorem run_finalized_iff_declaration (content : string)
    (pre run post : list string) (decl : string) :
  split_nl content = (pre ++ run ++ decl :: post)%list ->
  run <> [] -> Forall (fun l => is_doc_line l = true) run ->
  is_doc_line decl = false ->
  ((exists b, In b (extract_xml_doc_blocks content) /\
              end_line b = List.length pre + List.length run /\
              member_line b = List.length pre + List.length run + 1)
   <-> is_member_line decl = true) /\
  (is_member_line decl = true -> has_decl_mark decl = true).
Proof.
  intros E Hne Hrun Hd. unfold extract_xml_doc_blocks. rewrite E.
  split; [split|apply member_line_has_mark].
  - intros (b & Hin & _ & Hm).
    destruct (is_member_line decl) eqn:Hmem; auto. exfalso.
    rewrite run_before_other_dropped in Hin by assumption.
    apply in_app_or in Hin. destruct Hin as [Hin | Hin].
    + pose proof (extract_lines_upper pre) as H.
      rewrite Forall_forall in H. specialize (H b Hin). lia.
    + pose proof (blocks_from_lower
                    (List.length pre + List.length run + 2) post) as H.
      rewrite Forall_forall in H. specialize (H b Hin). lia.
  - intros Hmem.
    destruct (run_before_member_pushed pre run post decl Hne Hrun Hmem)
      as (b & _ & He & ->).
    exists (set_member_line (List.length pre + List.length run + 1) b).
    split; [|split; [exact He|reflexivity]].
    apply in_or_app; right; left; reflexivity.
Qed.

Lemma run_finalized_iff_declaration_witness :
  ((exists b, In b (extract_xml_doc_blocks property_example) /\
              end_line b = 1 /\ member_line b = 2)
   <-> is_member_line "public int Count { get; }" = true) /\
  (is_member_line "public int Count { get; }" = true ->
   has_decl_mark "public int Count { get; }" = true).
Proof.
  apply (run_finalized_iff_declaration property_example []
           ["/// <summary>The count.</summary>"] []
           "public int Count { get; }");
    [reflexivity | discriminate | repeat constructor | reflexivity].
Defined.

(* ------------------------------------------------------------------ *)
(** ** Blank lines *)

(** C7. A blank line closes the run and drops it: when one or more blank
    lines stand between a comment run and the next declaration, the output
    is that of the lines before the run followed by that of the lines after
    the declaration; no block and no diagnostic belongs to the lines from
    the run to the declaration. *)
Theorem blank_line_discards_run (fs : filesystem) (path content : string)
    (pre run blanks post : list string) (decl : string) :
  fs path = ReadOk content ->
  split_nl content = (pre ++ run ++ blanks ++ decl :: post)%list ->
  Forall (fun l => is_doc_line l = true) run ->
  blanks <> [] -> Forall (fun l => strip l = "") blanks ->
  is_member_line decl = true ->
  let k := List.length pre + List.length run + List.length blanks + 1 in
  extract_xml_doc_blocks content =
    (extract_lines pre ++ blocks_from (k + 1) post)%list /\
  (forall b, In b (extract_xml_doc_blocks content) ->
     member_line b <= List.length pre \/ k < start_line b) /\
  (forall d, In d (validate_file fs path) ->
     line d < List.length pre \/ k < line d).
Proof.
  intros Hread E Hrun Hne Hblank Hmem k.
  assert (Hx : extract_xml_doc_blocks content =
               (extract_lines pre ++ blocks_from (k + 1) post)%list).
  { unfold extract_xml_doc_blocks. rewrite E.
    destruct blanks as [|bl blanks]; [congruence|].
    inversion Hblank as [|? ? Hbl Hblanks]; subst.
    destruct (blank_line_other bl Hbl) as (Hd & Hm).
    change ((bl :: blanks) ++ decl :: post)%list
      with (bl :: (blanks ++ decl :: post))%list.
    rewrite run_before_other_dropped by assumption.
    f_equal.
    replace (blanks ++ decl :: post)%list
      with ((blanks ++ [decl]) ++ post)%list
      by (now rewrite <- app_assoc).
    rewrite blocks_from_skip.
    - f_equal. subst k. rewrite length_app; simpl. lia.
    - apply Forall_app; split.
      + eapply Forall_impl; [|exact Hblanks].
        intros l Hl. now apply blank_line_other.
      + constructor; [|constructor]. now apply member_line_not_doc. }
  assert (Hb : forall b, In b (extract_xml_doc_blocks content) ->
                 start_line b < member_line b /\
                 (member_line b <= List.length pre \/ k < start_line b)).
  { intros b Hin. rewrite Hx in Hin. apply in_app_or in Hin.
    destruct Hin as [Hin | Hin].
    - pose proof (extract_lines_upper pre) as H.
      rewrite Forall_forall in H. specialize (H b Hin). lia.
    - pose proof (blocks_from_lower (k + 1) post) as H.
      rewrite Forall_forall in H. specialize (H b Hin).
      pose proof (extract_lines_range (split_nl content)) as Hr.
      rewrite Forall_forall in Hr.
      assert (Hin' : In b (extract_xml_doc_blocks content))
        by (rewrite Hx; apply in_or_app; now right).
      specialize (Hr b Hin'). unfold block_range_ok in Hr. lia. }
  split; [exact Hx|]. split.
  - intros b Hin. apply Hb, Hin.
  - intros d Hin. unfold validate_file in Hin. rewrite Hread in Hin.
    apply in_flat_map in Hin. destruct Hin as (b & Hbin & Hd).
    rewrite (check_block_line path b d Hd).
    specialize (Hb b Hbin). lia.
Qed.

(* ================================================================== *)
(** * The text captured from a comment line *)

Lemma allb_app (p : ascii -> bool) (w s : string) :
  allb p (w ++ s) = (allb p w && allb p s)%bool.
Proof. induction w; simpl; auto. rewrite IHw. apply andb_assoc. Qed.

Lemma take_length_app (w s : string) : take (String.length w) (w ++ s) = w.
Proof. induction w; simpl; [now destruct s|congruence]. Qed.

Lemma lstrip_split (s : string) :
  exists w, s = w ++ lstrip s /\ allb isspace w = true.
Proof.
  induction s as [|c s (w & E & Hw)]; simpl.
  - now exists "".
  - destruct (isspace c) eqn:Hc.
    + exists (String c w); simpl. rewrite Hc, Hw. split; [f_equal; exact E|reflexivity].
    + now exists "".
Qed.

Lemma lstrip_nostart (s : string) : nostart isspace (lstrip s).
Proof.
  induction s as [|c s IH]; simpl; auto.
  destruct (isspace c) eqn:Hc; simpl; auto.
Qed.

Lemma rstrip_split (s : string) : exists t, s = rstrip s ++ t.
Proof.
  induction s as [|c s (t & E)]; simpl.
  - now exists "".
  - destruct (rstrip s) as [|d r] eqn:Er.
    + destruct (isspace c); [exists (String c s)|exists s]; reflexivity.
    + exists t. simpl in *. congruence.
Qed.

(** The greedy loop, when the text holds a maximal run [w] of the class
    and the continuation accepts what follows it. *)
Lemma star_c_greedy (p : ascii -> bool) (k : cont) (w s : string) (m : caps) :
  forall (pos : nat) (g : caps),
  allb p w = true -> nostart p s ->
  k (pos + String.length w) s g = Some m ->
  star_c p k pos (w ++ s) g = Some m.
Proof.
  induction w as [|a w IH]; intros pos g Hw Hs Hk; simpl in *.
  - rewrite Nat.add_0_r in Hk.
    destruct s as [|b s]; simpl in *; [exact Hk|]. now rewrite Hs.
  - apply andb_true_iff in Hw; destruct Hw as (Ha & Hw).
    rewrite Ha, (IH (S pos) g); auto.
    now replace (S pos + String.length w) with (pos + S (String.length w))
      by lia.
Qed.

Lemma bt_capture_rest (body : string) (pos : nat) (g : caps) :
  allb not_nl body = true ->
  bt false (Cat (Grp (Star Dot)) Eol) 0 accept pos body g
  = Some ((1, body) :: g).
Proof.
  intros Hnl. cbn [bt ngroups Nat.add].
  rewrite <- (append_nil_r body) at 1.
  apply star_c_greedy; [exact Hnl | exact I |].
  cbn beta iota. unfold accept. do 3 f_equal.
  replace (pos + String.length body - pos) with (String.length body) by lia.
  rewrite <- (append_nil_r body) at 2. apply take_length_app.
Qed.

Lemma bt_capture_spaces (w2 body : string) (pos : nat) (g : caps) :
  allb isspace w2 = true -> nostart isspace body ->
  allb not_nl body = true ->
  bt false (Cat (Star Space) (Cat (Grp (Star Dot)) Eol)) 0 accept pos
     (w2 ++ body) g
  = Some ((1, body) :: g).
Proof.
  intros H2 Hb Hnl.
  change (bt false (Cat (Star Space) (Cat (Grp (Star Dot)) Eol)) 0 accept pos
            (w2 ++ body) g)
    with (star_c isspace
            (fun pos' s' g' =>
               bt false (Cat (Grp (Star Dot)) Eol) 0 accept pos' s' g')
            pos (w2 ++ body) g).
  apply star_c_greedy; auto. now apply bt_capture_rest.
Qed.

Lemma content_match_shape (w1 w2 body : string) :
  allb isspace w1 = true -> allb isspace w2 = true ->
  nostart isspace body -> allb not_nl body = true ->
  content_match (w1 ++ "///" ++ w2 ++ body) = Some body.
Proof.
  intros H1 H2 Hb Hnl.
  unfold content_match, rmatch.
  change (bt false CONTENT_PATTERN 0 accept 0 (w1 ++ "///" ++ w2 ++ body) [])
    with (star_c isspace
            (fun pos' s' g' =>
               bt false (Cat (lit "///")
                          (Cat (Star Space) (Cat (Grp (Star Dot)) Eol)))
                  0 accept pos' s' g')
            0 (w1 ++ "///" ++ w2 ++ body) []).
  rewrite (star_c_greedy isspace _ w1 _ [(1, body)]);
    [reflexivity | exact H1 | reflexivity |].
  change (bt false (Cat (lit "///")
                      (Cat (Star Space) (Cat (Grp (Star Dot)) Eol)))
             0 accept (0 + String.length w1) ("///" ++ w2 ++ body) [])
    with (bt false (Cat (Star Space) (Cat (Grp (Star Dot)) Eol)) 0 accept
             (S (S (S (0 + String.length w1)))) (w2 ++ body) []).
  now apply bt_capture_spaces.
Qed.

Lemma doc_line_lstrip (l : string) :
  is_doc_line l = true -> exists rest, lstrip l = "///" ++ rest.
Proof.
  unfold is_doc_line, startswith, strip, DOC_MARKER. intros H.
  destruct (rstrip_split (lstrip l)) as (t & E).
  apply prefix_split. rewrite E. now apply prefix_trans_append.
Qed.

(** On a comment line without line break the content pattern always
    matches, and its group is the text after marker and whitespace. *)
Lemma content_match_doc (l : string) :
  is_doc_line l = true -> allb not_nl l = true ->
  content_match l = Some (line_text l).
Proof.
  intros Hd Hnl. unfold line_text.
  destruct (lstrip_split l) as (w1 & E1 & H1).
  destruct (doc_line_lstrip l Hd) as (rest & Er).
  destruct (lstrip_split rest) as (w2 & E2 & H2).
  rewrite Er. change (drop 3 ("///" ++ rest)) with rest.
  rewrite E1, Er, E2 in Hnl. rewrite !allb_app in Hnl.
  repeat (apply andb_true_iff in Hnl; destruct Hnl as (? & Hnl)).
  rewrite E1 at 1. rewrite Er. rewrite E2 at 1.
  apply content_match_shape; auto. apply lstrip_nostart.
Qed.

Lemma split_aux_no_nl (s : string) :
  allb not_nl (fst (split_aux s)) = true /\
  Forall (fun l => allb not_nl l = true) (snd (split_aux s)).
Proof.
  induction s as [|c s (H1 & H2)]; simpl; [auto|].
  destruct (split_aux s) as (l, ls); simpl in *.
  destruct (Ascii.eqb c nl) eqn:E; simpl; auto.
  unfold not_nl at 1. rewrite E; simpl. auto.
Qed.

(** The lines of a text hold no line break. *)
Lemma split_nl_no_nl (s : string) :
  Forall (fun l => allb not_nl l = true) (split_nl s).
Proof.
  unfold split_nl. pose proof (split_aux_no_nl s) as (H1 & H2).
  destruct (split_aux s); simpl in *. auto.
Qed.

(* ================================================================== *)
(** * Capturing the code sample *)

Ltac doc_step_cases :=
  repeat match goal with
  | |- context [if ?c then _ else _] => destruct c
  end.

Lemma doc_step_open (i : nat) (l : string) (st : scan_state) :
  doc_text_line l -> opens l = true -> closes l = false ->
  exists code, capture (doc_step i l st) code true [line_text l] /\
    exists b, st_current_block (doc_step i l st) = Some b /\
              has_code_csharp b = true.
Proof.
  intros (Hd & Hnl) Ho Hc. unfold opens, closes in *.
  unfold doc_step. rewrite Ho, Hc, (content_match_doc l Hd Hnl).
  eexists; split; [constructor; simpl; eauto|].
  eexists; split; [reflexivity|].
  destruct (st_current_block st); doc_step_cases; reflexivity.
Qed.

Lemma doc_step_body (i : nat) (l : string) (st : scan_state)
    (code : string) (cc : list string) :
  doc_text_line l -> opens l = false -> closes l = false ->
  capture st code true cc ->
  capture (doc_step i l st) code true (cc ++ [line_text l]).
Proof.
  intros (Hd & Hnl) Ho Hc [(b & Hb & Hcode) Hic Hcc].
  unfold opens, closes in *.
  unfold doc_step. rewrite Ho, Hc, Hb, Hic, Hcc, (content_match_doc l Hd Hnl).
  constructor; simpl; auto.
  eexists; split; [reflexivity|].
  doc_step_cases; simpl; exact Hcode.
Qed.

Lemma doc_step_close (i : nat) (l : string) (st : scan_state)
    (code : string) (ic : bool) (cc : list string) :
  opens l = false -> closes l = true ->
  capture st code ic cc ->
  capture (doc_step i l st) (join_nl cc) false cc.
Proof.
  intros Ho Hc [(b & Hb & Hcode) Hic Hcc].
  unfold opens, closes in *.
  unfold doc_step. rewrite Ho, Hc, Hb, Hcc.
  constructor; simpl; auto.
  eexists; split; [reflexivity|]. reflexivity.
Qed.

(** After the close marker, lines without open marker change nothing. *)
Lemma doc_step_after (i : nat) (l : string) (st : scan_state)
    (cc : list string) :
  opens l = false ->
  capture st (join_nl cc) false cc ->
  capture (doc_step i l st) (join_nl cc) false cc.
Proof.
  intros Ho [(b & Hb & Hcode) Hic Hcc].
  unfold opens in *.
  unfold doc_step. rewrite Ho, Hb, Hic, Hcc.
  destruct (contains CODE_CLOSE (strip l)); constructor; simpl; auto;
    (eexists; split; [reflexivity|]); doc_step_cases; simpl; auto.
Qed.

(** Without close marker the stored text stays as it is. *)
Lemma doc_step_unclosed (i : nat) (l : string) (st : scan_state) :
  closes l = false ->
  exists b, st_current_block (doc_step i l st) = Some b /\
    code_content b = match st_current_block st with
                     | Some b0 => code_content b0
                     | None => ""
                     end /\
    has_code_csharp b =
      (opens l || match st_current_block st with
                  | Some b0 => has_code_csharp b0
                  | None => false
                  end)%bool /\
    start_line b = match st_current_block st with
                   | Some b0 => start_line b0
                   | None => i
                   end.
Proof.
  intros Hc. unfold closes, opens in *. unfold doc_step. rewrite Hc.
  eexists; split; [reflexivity|].
  destruct (st_current_block st); doc_step_cases; simpl; auto.
Qed.

Lemma scan_body (body : list string) :
  forall (i : nat) (st : scan_state) (code : string) (cc : list string),
  Forall (fun l => body_line l /\ allb not_nl l = true) body ->
  capture st code true cc ->
  capture (scan i body st) code true (cc ++ map line_text body).
Proof.
  induction body as [|l body IH]; intros i st code cc H Hcap; simpl.
  - now rewrite app_nil_r.
  - inversion H as [|? ? ((Hd & Ho & Hc) & Hnl) H']; subst.
    rewrite step_doc by assumption.
    replace (cc ++ line_text l :: map line_text body)%list
      with ((cc ++ [line_text l]) ++ map line_text body)%list
      by (now rewrite <- app_assoc).
    apply IH; auto. apply doc_step_body; auto. now split.
Qed.

Lemma scan_after (more : list string) :
  forall (i : nat) (st : scan_state) (cc : list string),
  Forall after_line more ->
  capture st (join_nl cc) false cc ->
  capture (scan i more st) (join_nl cc) false cc.
Proof.
  induction more as [|l more IH]; intros i st cc H Hcap; simpl; auto.
  inversion H as [|? ? (Hd & Ho) H']; subst.
  rewrite step_doc by assumption.
  apply IH; auto. now apply doc_step_after.
Qed.

Lemma scan_code_sample (i : nat) (st : scan_state) (open close : string)
    (body more : list string) :
  code_sample open body close more ->
  Forall (fun l => allb not_nl l = true) (open :: body) ->
  let cc := line_text open :: map line_text body in
  capture (scan i (open :: body ++ close :: more) st) (join_nl cc) false cc.
Proof.
  intros [(Hod & Hoo & Hoc) Hbody (Hcd & Hco & Hcc) Hmore] Hnl cc.
  inversion Hnl as [|? ? Hnlo Hnlb]; subst.
  cbn [scan]. rewrite step_doc by assumption.
  destruct (doc_step_open i open st (conj Hod Hnlo) Hoo Hoc)
    as (code & Hcap & _).
  rewrite scan_app. cbn [scan]. rewrite step_doc by assumption.
  apply scan_after; auto.
  eapply doc_step_close; eauto.
  apply (scan_body body (S i) _ code [line_text open]); auto.
  rewrite Forall_forall in *. intros l Hl. split; auto.
Qed.

Lemma Forall_app_l {A : Type} (P : A -> Prop) (l1 l2 : list A) :
  Forall P (l1 ++ l2) -> Forall P l1.
Proof. intros H; apply Forall_app in H; tauto. Qed.

Lemma Forall_app_r {A : Type} (P : A -> Prop) (l1 l2 : list A) :
  Forall P (l1 ++ l2) -> Forall P l2.
Proof. intros H; apply Forall_app in H; tauto. Qed.

(** Comment lines without close marker leave the stored code text as it
    is and remember whether a tagged open marker was seen. *)
Lemma scan_unclosed (run : list string) :
  forall (i : nat) (st : scan_state),
  Forall unclosed_line run ->
  stored_code (scan i run st) = stored_code st /\
  opened_so_far (scan i run st) = (existsb opens run || opened_so_far st)%bool.
Proof.
  induction run as [|l run IH]; intros i st H; [now split|].
  inversion H as [|? ? (Hd & Hc) H']; subst.
  simpl scan. rewrite step_doc by assumption.
  destruct (doc_step_unclosed i l st Hc) as (b1 & E1 & Hcode & Hopen & _).
  destruct (IH (S i) (doc_step i l st) H') as (Hcode' & Hopen').
  rewrite Hcode', Hopen'. unfold stored_code, opened_so_far. rewrite E1.
  split; [exact Hcode|]. rewrite Hopen. cbn [existsb].
  now rewrite orb_assoc, (orb_comm (existsb opens run)).
Qed.

(** The start line of the open block is set by the first comment line. *)
Lemma scan_docs_start (run : list string) :
  forall (i : nat) (st : scan_state),
  Forall (fun l => is_doc_line l = true) run ->
  start_or (i + List.length run) (scan i run st) = start_or i st.
Proof.
  induction run as [|l run IH]; intros i st H; simpl.
  - now rewrite Nat.add_0_r.
  - inversion H as [|? ? Hd H']; subst.
    rewrite step_doc by assumption.
    replace (i + S (List.length run)) with (S i + List.length run) by lia.
    rewrite IH by assumption.
    destruct (doc_step_current i l st) as (b & E & _ & Hs).
    unfold start_or. now rewrite E.
Qed.

Lemma doc_step_idle (i : nat) (l : string) (st : scan_state) :
  opens l = false -> idle st -> idle (doc_step i l st).
Proof.
  intros Ho (Hcode & Hic & Hcc). unfold opens in Ho.
  unfold idle, stored_code in *. unfold doc_step. rewrite Ho, Hic, Hcc.
  destruct (contains CODE_CLOSE (strip l)); simpl;
    (split; [|now split]);
    destruct (st_current_block st); doc_step_cases; simpl; auto.
Qed.

Lemma scan_idle (before : list string) :
  forall (i : nat) (st : scan_state),
  Forall after_line before -> idle st -> idle (scan i before st).
Proof.
  induction before as [|l before IH]; intros i st H Hidle; simpl; auto.
  inversion H as [|? ? (Hd & Ho) H']; subst.
  rewrite step_doc by assumption. apply IH; auto.
  now apply doc_step_idle.
Qed.

Lemma scan_closed_after (pre : list string) (i : nat) :
  is_doc_line (last pre "") = false ->
  st_current_block (scan i pre scan_init) = None /\
  idle (scan i pre scan_init).
Proof.
  destruct pre as [|l0 pre0] using rev_ind; [now repeat split|].
  rewrite last_last. intros Hd.
  rewrite scan_app. simpl. rewrite step_other by assumption.
  now repeat split.
Qed.

(** A run that holds a closed code sample and after it no further close
    marker that follows an open marker, followed by a declaration: the
    block pushed and its code text. *)
Lemma code_sample_finalized
    (pre earlier body more tail post : list string)
    (open close decl : string) :
  Forall (fun l => is_doc_line l = true) earlier ->
  code_sample open body close more ->
  Forall unclosed_line tail ->
  Forall (fun l => allb not_nl l = true) (open :: body) ->
  is_member_line decl = true ->
  let run :=
    (earlier ++ (open :: body ++ close :: more) ++ tail)%list in
  exists b,
    extract_lines (pre ++ run ++ decl :: post) =
    (extract_lines pre ++ b ::
     blocks_from (List.length pre + List.length run + 2) post)%list /\
    member_line b = List.length pre + List.length run + 1 /\
    code_content b = join_nl (line_text open :: map line_text body).
Proof.
  intros Hearlier Hs Htail Hnl Hmem run.
  assert (Hne : run <> []) by (subst run; now destruct earlier).
  assert (Hrun : Forall (fun l => is_doc_line l = true) run).
  { destruct Hs as [(Hod & _) Hbody (Hcd & _) Hmore].
    subst run. apply Forall_app; split; auto.
    apply Forall_app; split.
    - constructor; auto. apply Forall_app; split.
      + eapply Forall_impl; [|exact Hbody]. now intros l (H & _).
      + constructor; auto.
        eapply Forall_impl; [|exact Hmore]. now intros l (H & _).
    - eapply Forall_impl; [|exact Htail]. now intros l (H & _). }
  destruct (run_before_member_pushed pre run post decl Hne Hrun Hmem)
    as (b & Hb & He & Hx).
  exists (set_member_line (List.length pre + List.length run + 1) b).
  split; [exact Hx|]. split; [reflexivity|].
  change (code_content b = join_nl (line_text open :: map line_text body)).
  assert (Hst : stored_code
                  (scan (1 + List.length pre) run (scan 1 pre scan_init))
                = code_content b)
    by (unfold stored_code; now rewrite Hb).
  rewrite <- Hst. subst run. rewrite !scan_app.
  destruct (scan_unclosed tail
              (1 + List.length pre + List.length earlier
               + List.length (open :: body ++ close :: more))
              (scan (1 + List.length pre + List.length earlier)
                 (open :: body ++ close :: more)
                 (scan (1 + List.length pre) earlier (scan 1 pre scan_init)))
              Htail) as (-> & _).
  destruct (scan_code_sample (1 + List.length pre + List.length earlier)
              (scan (1 + List.length pre) earlier (scan 1 pre scan_init))
              open close body more Hs Hnl) as [(b' & Hb' & Hcode) _ _].
  unfold stored_code. now rewrite Hb'.
Qed.

(** What [line_text] removes: the indentation, the marker and every
    whitespace character that follows the marker. *)
Lemma line_text_spec (l : string) :
  is_doc_line l = true ->
  exists w1 w2, l = w1 ++ "///" ++ w2 ++ line_text l /\
    allb isspace w1 = true /\ allb isspace w2 = true /\
    nostart isspace (line_text l).
Proof.
  intros Hd. unfold line_text.
  destruct (lstrip_split l) as (w1 & E1 & H1).
  destruct (doc_line_lstrip l Hd) as (rest & Er).
  destruct (lstrip_split rest) as (w2 & E2 & H2).
  rewrite Er. change (drop 3 ("///" ++ rest)) with rest.
  exists w1, w2. repeat split; auto; [|apply lstrip_nostart].
  rewrite <- E2, <- Er. exact E1.
Qed.

Lemma sample_lines_no_nl (content : string)
    (pre earlier body more tail rest : list string) (open close : string) :
  split_nl content =
    (pre ++ (earlier ++ (open :: body ++ close :: more) ++ tail) ++ rest)%list ->
  Forall (fun l => allb not_nl l = true) (open :: body).
Proof.
  intros E. pose proof (split_nl_no_nl content) as Hnl. rewrite E in Hnl.
  apply Forall_app_r, Forall_app_l, Forall_app_r, Forall_app_l in Hnl.
  inversion Hnl as [|? ? Ho Hrest]; subst. constructor; auto.
  now apply Forall_app_l in Hrest.
Qed.







(** C3 as stated fails, in two ways.  For the first sample the stored code
    text is not the line between the markers with the marker and one space
    removed (two spaces kept): the indentation is gone, and the text of the
    open-marker line comes first.  In the second file a close marker
    follows the open marker of line 5 on line 7, yet the line between them
    is not stored: the open marker shares its line with a close marker, so
    the sample is closed on the line that opens it. *)
Lemma code_text_not_as_claimed :
  (exists b, extract_xml_doc_blocks code_example = [b] /\
     code_content b = join_nl [CODE_OPEN; "return 1;"] /\
     code_content b <> "  return 1;") /\
  (exists b, extract_xml_doc_blocks shared_line_example = [b] /\
     nth_error (split_nl shared_line_example) 4
       = Some ("/// </code> " ++ CODE_OPEN) /\
     opens ("/// </code> " ++ CODE_OPEN) = true /\
     nth_error (split_nl shared_line_example) 5 = Some "/// second();" /\
     nth_error (split_nl shared_line_example) 6 = Some "/// </code>" /\
     closes "/// </code>" = true /\
     code_content b = "" /\
     code_content b <> "second();").
Proof.
  split.
  - eexists. split; [vm_compute; reflexivity|].
    split; [reflexivity|]. intros H; vm_compute in H; discriminate.
  - eexists. split; [vm_compute; reflexivity|].
    repeat (split; [reflexivity|]). discriminate.
Qed.

(** C3, amended.  Take a run that ends at a declaration and in which
    - a line [open] holds the tagged open marker and no close marker,
    - the lines [body] after it hold neither marker,
    - the next line [close] holds the close marker and no tagged open
      marker, and
    - after [close] no open marker is followed, on its line or later, by a
      close marker: the lines [more] hold no open marker and the lines
      [tail] after them no close marker.
    Then the code text of the finalized block ends with the lines [body],
    those strictly between the two marker lines, in order, each without
    its indentation, its marker and all the whitespace after the marker;
    the close-marker line is not captured. *)
Theorem code_text_between_markers (content : string)
    (pre earlier body more tail post : list string)
    (open close decl : string) :
  split_nl content =
    (pre ++ (earlier ++ (open :: body ++ close :: more) ++ tail)
         ++ decl :: post)%list ->
  Forall (fun l => is_doc_line l = true) earlier ->
  is_doc_line open = true -> opens open = true -> closes open = false ->
  Forall (fun l => is_doc_line l = true /\
                   opens l = false /\ closes l = false) body ->
  is_doc_line close = true -> opens close = false -> closes close = true ->
  Forall (fun l => is_doc_line l = true /\ opens l = false) more ->
  Forall (fun l => is_doc_line l = true /\ closes l = false) tail ->
  is_member_line decl = true ->
  exists b lead,
    In b (extract_xml_doc_blocks content) /\
    member_line b =
      List.length pre
      + List.length (earlier ++ (open :: body ++ close :: more) ++ tail) + 1 /\
    code_content b = join_nl (lead ++ map line_text body) /\
    Forall (fun l => exists w1 w2,
              l = w1 ++ "///" ++ w2 ++ line_text l /\
              allb isspace w1 = true /\ allb isspace w2 = true /\
              nostart isspace (line_text l)) body.
Proof.
  intros E He Hod Hoo Hoc Hbody Hcd Hco Hcc Hmore Ht Hm.
  assert (Hs : code_sample open body close more)
    by (constructor; auto).
  pose proof (sample_lines_no_nl content pre earlier body more tail
                (decl :: post) open close E) as Hnl.
  destruct (code_sample_finalized pre earlier body more tail post
              open close decl He Hs Ht Hnl Hm) as (b & Hx & Hml & Hcode).
  exists b, [line_text open]. unfold extract_xml_doc_blocks. rewrite E, Hx.
  split; [apply in_or_app; right; now left|].
  split; [exact Hml|]. split; [exact Hcode|].
  eapply Forall_impl; [|exact Hbody].
  intros l (Hd & _). now apply line_text_spec.
Qed.

Lemma code_text_between_markers_witness :
  exists b lead,
    In b (extract_xml_doc_blocks code_example) /\
    member_line b = 7 /\
    code_content b = join_nl (lead ++ map line_text ["///   return 1;"]) /\
    Forall (fun l => exists w1 w2,
              l = w1 ++ "///" ++ w2 ++ line_text l /\
              allb isspace w1 = true /\ allb isspace w2 = true /\
              nostart isspace (line_text l)) ["///   return 1;"].
Proof.
  apply (code_text_between_markers code_example []
           ["/// <summary>One.</summary>"; "/// <example>"]
           ["///   return 1;"] ["/// </example>"] [] []
           ("/// " ++ CODE_OPEN) "/// </code>" "public int One() {").
  - reflexivity.
  - repeat constructor.
  - reflexivity.
  - reflexivity.
  - reflexivity.
  - repeat constructor.
  - reflexivity.
  - reflexivity.
  - reflexivity.
  - repeat constructor.
  - constructor.
  - reflexivity.
Defined.



(** The sample of [two_samples] opened and closed last, and the text the
    block keeps: nothing of the first sample, nothing of the third. *)
Example two_samples_last :
  last_sample (split_nl (join_nl
                 [ "/// <summary>Two.</summary>"; "/// <example>";
                   "/// " ++ CODE_OPEN; "/// first();"; "/// </code>";
                   "/// " ++ CODE_OPEN; "/// second();"; "/// </code>";
                   "/// </example>"; "/// " ++ CODE_OPEN; "/// third();" ]))
              [ "/// " ++ CODE_OPEN; "/// second();" ].
Proof.
  apply (last_sample_lines
           [ "/// <summary>Two.</summary>"; "/// <example>";
             "/// " ++ CODE_OPEN; "/// first();"; "/// </code>" ]
           ["/// second();"] ["/// </example>"]
           ["/// " ++ CODE_OPEN; "/// third();"]
           ("/// " ++ CODE_OPEN) "/// </code>").
  - repeat constructor.
  - constructor; repeat constructor.
  - repeat constructor.
Qed.

Example two_samples_code :
  map code_content (extract_xml_doc_blocks two_samples)
  = [join_nl [CODE_OPEN; "second();"]].
Proof. reflexivity. Qed.

(** With the second sample opened on the line that closes the first, the
    sample opened and closed last has no line, and the block keeps an
    empty text. *)
Example shared_line_code :
  map code_content (extract_xml_doc_blocks shared_line_example) = [""].
Proof. reflexivity. Qed.

(* ------------------------------------------------------------------ *)
(** ** A code sample that is never closed *)

Lemma no_placeholder_in_empty : check_for_placeholders "" = [].
Proof. reflexivity. Qed.

(** C10. A run that holds the tagged open marker and, from the first open
    marker on, no close marker, and that ends at a declaration, is
    finalized with the tagged-code flag set and an empty code text: with a
    summary and an example it passes the first two rules and gets no
    diagnostic at all, and in no case does it get a placeholder warning,
    whatever was written after the open marker.  [before] are the lines of
    the run in front of the first open marker, [rest] the others. *)
Theorem unclosed_code_block_empty (path content : string)
    (pre before rest post : list string) (decl : string) :
  split_nl content = (pre ++ (before ++ rest) ++ decl :: post)%list ->
  is_doc_line (last pre "") = false ->
  Forall after_line before ->
  Forall unclosed_line rest ->
  existsb opens rest = true ->
  is_member_line decl = true ->
  exists b,
    In b (extract_xml_doc_blocks content) /\
    start_line b = List.length pre + 1 /\
    end_line b = List.length pre + List.length (before ++ rest) /\
    member_line b = List.length pre + List.length (before ++ rest) + 1 /\
    has_code_csharp b = true /\ code_content b = "" /\
    (has_summary b = true -> has_example b = true ->
       check_block path b = []) /\
    (forall d, In d (check_block path b) -> issue_type d = "error").
Proof.
  intros E Hpre Hbefore Hrest Hopen Hmem.
  assert (Hne : (before ++ rest)%list <> []).
  { destruct rest; [discriminate|]. now destruct before. }
  assert (Hdoc : Forall (fun l => is_doc_line l = true) (before ++ rest)).
  { apply Forall_app; split.
    - eapply Forall_impl; [|exact Hbefore]. now intros l (H & _).
    - eapply Forall_impl; [|exact Hrest]. now intros l (H & _). }
  destruct (run_before_member_pushed pre (before ++ rest) post decl
              Hne Hdoc Hmem) as (b & Hb & He & Hx).
  destruct (scan_closed_after pre 1 Hpre) as (Hnone & Hidle).
  pose proof (scan_docs_start (before ++ rest) (1 + List.length pre)
                (scan 1 pre scan_init) Hdoc) as Hstart.
  unfold start_or in Hstart. rewrite Hb, Hnone in Hstart.
  pose proof (scan_idle before (1 + List.length pre) (scan 1 pre scan_init)
                Hbefore Hidle) as (Hcode0 & _).
  destruct (scan_unclosed rest (1 + List.length pre + List.length before)
              (scan (1 + List.length pre) before (scan 1 pre scan_init))
              Hrest) as (Hcode & Hflag).
  rewrite <- scan_app in Hcode, Hflag.
  unfold stored_code at 1 in Hcode. unfold opened_so_far at 1 in Hflag.
  rewrite Hb in Hcode, Hflag. rewrite Hcode0 in Hcode.
  rewrite Hopen in Hflag; simpl in Hflag.
  exists (set_member_line
            (List.length pre + List.length (before ++ rest) + 1) b).
  unfold extract_xml_doc_blocks. rewrite E, Hx.
  split; [apply in_or_app; right; now left|].
  split; [simpl; lia|]. split; [exact He|]. split; [reflexivity|].
  split; [exact Hflag|]. split; [exact Hcode|].
  unfold check_block; simpl. rewrite Hflag, Hcode, no_placeholder_in_empty.
  split.
  - now intros -> ->.
  - intros d.
    destruct (has_summary b); simpl; [destruct (has_example b); simpl|];
      intros Hin; try contradiction;
      destruct Hin as [<- | []]; reflexivity.
Qed.

Lemma unclosed_code_block_empty_witness :
  exists b,
    In b (extract_xml_doc_blocks unclosed_example) /\
    start_line b = 1 /\ end_line b = 4 /\ member_line b = 5 /\
    has_code_csharp b = true /\ code_content b = "" /\
    (has_summary b = true -> has_example b = true ->
       check_block "Open.cs" b = []) /\
    (forall d, In d (check_block "Open.cs" b) -> issue_type d = "error").
Proof.
  apply (unclosed_code_block_empty "Open.cs" unclosed_example []
           ["/// <summary>Open.</summary>"; "/// <example>"]
           ["/// " ++ CODE_OPEN; "/// TODO invoke the member here"]
           [] "public void Open() {");
    [reflexivity | reflexivity | repeat constructor | repeat constructor
    | reflexivity | reflexivity].
Defined.

Example unclosed_example_clean :
  validate_file (fun _ => ReadOk unclosed_example) "Open.cs" = [].
Proof. reflexivity. Qed.

(* ================================================================== *)
(** * The theorems at work on small files *)

Lemma summary_flag_sticky_witness :
  exists b',
    st_current_block
      (scan 2 ["/// </summary>"; "/// <remarks>none</remarks>"]
         open_summary_state) = Some b' /\
    has_summary b' = true.
Proof.
  apply (summary_flag_sticky 2
           ["/// </summary>"; "/// <remarks>none</remarks>"]
           open_summary_state
           (mkXmlDocBlock 1 1 true false false "" 0 "" ""));
    [repeat constructor | reflexivity | reflexivity].
Defined.

Lemma blocks_bounded_by_declarations_witness :
  List.length (extract_xml_doc_blocks dangling_example)
    <= count_member_lines (split_nl dangling_example) /\
  extract_xml_doc_blocks dangling_example =
    extract_lines ["/// <summary>Hidden.</summary>"; "private int hidden;"] /\
  extract_xml_doc_blocks dangling_example =
    (extract_lines [] ++
     blocks_from 3 ["/// <summary>Nothing follows.</summary>"])%list.
Proof.
  destruct (blocks_bounded_by_declarations dangling_example)
    as (H1 & H2 & H3).
  split; [exact H1|]. split.
  - apply (H2 ["/// <summary>Hidden.</summary>"; "private int hidden;"]
              ["/// <summary>Nothing follows.</summary>"]);
      [reflexivity | repeat constructor].
  - apply (H3 [] ["/// <summary>Hidden.</summary>"] "private int hidden;"
              ["/// <summary>Nothing follows.</summary>"]);
      [reflexivity | repeat constructor | reflexivity | reflexivity].
Defined.

Lemma blank_line_discards_run_witness :
  extract_xml_doc_blocks blank_example =
    (extract_lines [] ++ blocks_from 4 [])%list /\
  (forall b, In b (extract_xml_doc_blocks blank_example) ->
     member_line b <= 0 \/ 3 < start_line b) /\
  (forall d, In d (validate_file (fun _ => ReadOk blank_example) "Run.cs") ->
     line d < 0 \/ 3 < line d).
Proof.
  apply (blank_line_discards_run (fun _ => ReadOk blank_example) "Run.cs"
           blank_example [] ["/// <summary>Detached.</summary>"] ["  "] []
           "public void Run() {");
    [reflexivity | reflexivity | repeat constructor | discriminate
    | repeat constructor | reflexivity].
Defined.

Lemma policy_first_failure_wins_witness :
  validate_file (fun _ => ReadOk code_example) "One.cs" =
    flat_map (check_block "One.cs") (extract_xml_doc_blocks code_example) /\
  check_block "One.cs" (new_block 3) =
    [mkDocIssue "One.cs" 3 "error" MSG_SUMMARY] /\
  check_block "One.cs" (set_has_summary (new_block 3)) =
    [mkDocIssue "One.cs" 3 "error" MSG_EXAMPLE] /\
  check_block "One.cs" sample_block =
    map (placeholder_warning "One.cs" sample_block)
        (filter (matches_placeholder (code_content sample_block))
                PLACEHOLDER_PATTERNS).
Proof.
  destruct (policy_first_failure_wins (fun _ => ReadOk code_example)
              "One.cs" code_example eq_refl) as (H0 & H).
  split; [exact H0|]. split; [|split].
  - apply (proj1 (H (new_block 3))). reflexivity.
  - apply (proj1 (proj2 (H (set_has_summary (new_block 3))))).
    + reflexivity.
    + left; reflexivity.
  - apply (proj2 (proj2 (H sample_block))); reflexivity.
Defined.

Example sample_block_warnings :
  map message (check_block "One.cs" sample_block) =
    [ "Code example contains placeholder pattern: TODO";
      "Code example contains placeholder pattern: \.\.\.\.\.\." ].
Proof. reflexivity. Qed.

Lemma read_failure_isolated_witness :
  validate_file broken_fs "Bad.cs" =
    [mkDocIssue "Bad.cs" 0 "error" "Could not read file: Permission denied"] /\
  printed (run_files broken_fs ["One.cs"; "Bad.cs"; "Two.cs"]) =
    (flat_map (validate_file broken_fs) ["One.cs"] ++
     mkDocIssue "Bad.cs" 0 "error" "Could not read file: Permission denied" ::
     flat_map (validate_file broken_fs) ["Two.cs"])%list.
Proof.
  destruct (read_failure_isolated broken_fs "Bad.cs" "Permission denied"
              eq_refl) as (H1 & H2).
  split; [exact H1|]. exact (proj1 (H2 ["One.cs"] ["Two.cs"])).
Defined.

(* ------------------------------------------------------------------ *)
(** ** The scenarios of the documentation policy *)

Example scenario_clean_method :
  validate_file (fun _ => ReadOk code_example) "One.cs" = [].
Proof. reflexivity. Qed.

Example scenario_missing_example :
  validate_file (fun _ => ReadOk no_example) "Name.cs" =
    [mkDocIssue "Name.cs" 1 "error" MSG_EXAMPLE].
Proof. reflexivity. Qed.

Example scenario_todo_warning :
  validate_file (fun _ => ReadOk todo_example) "Kind.cs" =
    [mkDocIssue "Kind.cs" 1 "warning"
       "Code example contains placeholder pattern: TODO"].
Proof. reflexivity. Qed.

Example scenario_dangling_runs :
  extract_xml_doc_blocks dangling_example = [].
Proof. reflexivity. Qed.

(* ================================================================== *)
(** * Further properties of the extractor *)

(** ** Every block documents a declaration *)

Lemma line_at_app_l (ls : list string) (l : string) (k : nat) :
  k <= List.length ls -> line_at (ls ++ [l]) k = line_at ls k.
Proof.
  destruct k as [|j]; simpl; auto. intros H.
  apply nth_error_app1. lia.
Qed.

Lemma line_at_last (ls : list string) (l : string) :
  line_at (ls ++ [l]) (S (List.length ls)) = Some l.
Proof.
  simpl. rewrite nth_error_app2 by lia. now rewrite Nat.sub_diag.
Qed.

Lemma line_at_bound (ls : list string) (k : nat) (l : string) :
  line_at ls k = Some l -> 1 <= k <= List.length ls.
Proof.
  destruct k as [|j]; simpl; [discriminate|]. intros H.
  assert (nth_error ls j <> None) by congruence.
  apply nth_error_Some in H0. lia.
Qed.

Lemma block_sound_snoc (ls : list string) (l : string) (b : XmlDocBlock) :
  block_sound ls b -> block_sound (ls ++ [l]) b.
Proof.
  intros [Hs Hr Hn Hd (l1 & Hl1 & Hdecl) Hm].
  pose proof (line_at_bound ls _ _ Hl1) as Hb.
  constructor; auto.
  - intros j Hj. destruct (Hd j Hj) as (l0 & E & D).
    exists l0. rewrite line_at_app_l by lia. auto.
  - exists l1. rewrite line_at_app_l by lia. auto.
  - intros l0. rewrite line_at_app_l by lia. apply Hm.
Qed.

Lemma state_sound_step (ls : list string) (l : string) (st : scan_state) :
  state_sound ls st ->
  state_sound (ls ++ [l]) (step (S (List.length ls)) l st).
Proof.
  intros (Hblocks & Hcur).
  assert (Hblocks' : Forall (block_sound (ls ++ [l])) (st_blocks st)).
  { eapply Forall_impl; [|exact Hblocks]. intros b. apply block_sound_snoc. }
  unfold step. destruct (is_doc_line l) eqn:Hdoc.
  - split; [exact Hblocks'|].
    destruct (doc_step_current (S (List.length ls)) l st)
      as (b & E & He & Hst).
    rewrite E. destruct (st_current_block st) as [b0|].
    + destruct Hcur as [Hs Hr Hend Hd Hm].
      constructor; rewrite ?He, ?Hst; auto; try lia.
      * rewrite length_app; simpl; lia.
      * intros j Hj. destruct (Nat.eq_dec j (S (List.length ls))) as [->|Hne].
        -- exists l. now rewrite line_at_last.
        -- destruct (Hd j) as (l0 & E0 & D0); [lia|].
           exists l0. rewrite line_at_app_l by lia. auto.
      * intros l0. rewrite line_at_app_l by lia. apply Hm.
    + constructor; rewrite ?He, ?Hst; auto; try lia.
      * rewrite length_app; simpl; lia.
      * intros j Hj. assert (j = S (List.length ls)) as -> by lia.
        exists l. now rewrite line_at_last.
      * intros l0. simpl. rewrite Nat.sub_0_r.
        rewrite line_at_app_l by lia. apply Hcur.
  - assert (Hnone : forall l0,
              line_at (ls ++ [l]) (List.length (ls ++ [l])) = Some l0 ->
              is_doc_line l0 = false).
    { intros l0. rewrite length_app; simpl.
      replace (List.length ls + 1) with (S (List.length ls)) by lia.
      rewrite line_at_last. intros H; inversion H; subst; auto. }
    unfold other_step.
    destruct (st_current_block st) as [b|];
      [destruct (is_member_line l) eqn:Hmem|]; simpl; split; auto.
    apply Forall_app; split; auto. constructor; [|constructor].
    destruct Hcur as [Hs Hr Hend Hd Hm].
    constructor;
      cbn [set_member_line start_line end_line member_line]; auto; try lia.
    + intros j Hj. destruct (Hd j Hj) as (l0 & E0 & D0).
      exists l0. rewrite line_at_app_l by lia. auto.
    + exists l. rewrite line_at_last. auto.
    + intros l0. rewrite line_at_app_l by lia. apply Hm.
Qed.

Lemma state_sound_scan (ls : list string) :
  state_sound ls (scan 1 ls scan_init).
Proof.
  induction ls as [|l ls IH] using rev_ind.
  - split; [constructor|]. simpl. discriminate.
  - rewrite scan_app. simpl. now apply state_sound_step.
Qed.

Lemma extract_lines_sound (ls : list string) :
  Forall (block_sound ls) (extract_lines ls).
Proof. apply state_sound_scan. Qed.

(** X1. Every block the extractor returns documents a declaration of the
    text: its lines are comment lines of the text, the line before them is
    not a comment line, and the line right after them, whose number the
    block carries, is a line the declaration patterns recognise. *)
Theorem blocks_document_declarations (content : string) :
  Forall (block_sound (split_nl content)) (extract_xml_doc_blocks content).
Proof.
  unfold extract_xml_doc_blocks, extract_lines.
  destruct (state_sound_scan (split_nl content)) as (Hblocks & _).
  exact Hblocks.
Qed.

(** ** Where the blocks are *)

Lemma nth_error_two (ls : list string) (j : nat) (l0 l1 : string) :
  nth_error ls j = Some l0 -> nth_error ls (S j) = Some l1 ->
  exists pre post, ls = (pre ++ l0 :: l1 :: post)%list /\ List.length pre = j.
Proof.
  intros H0 H1. apply nth_error_split in H0.
  destruct H0 as (pre & rest & -> & Hlen).
  rewrite nth_error_app2 in H1 by lia.
  replace (S j - List.length pre) with 1 in H1 by lia.
  destruct rest as [|r post]; simpl in H1; [discriminate|].
  inversion H1; subst. eauto.
Qed.

Lemma member_lines_increasing (ls : list string) :
  StronglySorted lt (map member_line (extract_lines ls)).
Proof.
  pose proof (extract_lines_range ls) as Hr.
  pose proof (extract_lines_sorted ls) as Hs.
  induction Hs as [|a l Hs IH Ha]; simpl; [constructor|].
  inversion Hr as [|? ? Hra Hr']; subst.
  constructor; auto.
  rewrite Forall_map. rewrite Forall_forall in *.
  intros b Hb. specialize (Ha b Hb). specialize (Hr' b Hb).
  unfold block_range_ok in *. lia.
Qed.

Lemma member_lines_iff (ls : list string) (k : nat) :
  In k (map member_line (extract_lines ls)) <-> documented_at ls k.
Proof.
  unfold documented_at. split.
  - intros Hin. apply in_map_iff in Hin. destruct Hin as (b & <- & Hb).
    pose proof (extract_lines_sound ls) as Hs.
    rewrite Forall_forall in Hs.
    destruct (Hs b Hb) as [H1 Hr Hn Hd (l1 & Hl1 & _ & Hm) _].
    destruct (Hd (end_line b)) as (l0 & Hl0 & Hdoc); [lia|].
    exists l0, l1. rewrite Hn at 1.
    replace (end_line b + 1 - 1) with (end_line b) by lia. auto.
  - intros (l0 & l1 & H0 & H1 & Hdoc & Hm).
    destruct k as [|[|j]]; simpl in H0; try discriminate.
    simpl in H1. rewrite ?Nat.sub_0_r in H0.
    destruct (nth_error_two ls j l0 l1 H0 H1) as (pre & post & -> & Hlen).
    destruct (run_before_member_pushed pre [l0] post l1) as (b & _ & _ & Hx);
      [discriminate | now constructor | assumption |].
    change (pre ++ l0 :: l1 :: post)%list
      with (pre ++ [l0] ++ l1 :: post)%list.
    rewrite Hx, map_app. apply in_or_app; right. left. simpl. lia.
Qed.

(** X2. The declaration lines of the returned blocks are exactly the lines
    that match the declaration patterns and come right after a comment
    line, each once and in increasing order; so there are as many blocks as
    such lines. *)
Theorem blocks_at_documented_declarations (content : string) :
  StronglySorted lt (map member_line (extract_xml_doc_blocks content)) /\
  forall k : nat,
    In k (map member_line (extract_xml_doc_blocks content)) <->
    documented_at (split_nl content) k.
Proof.
  unfold extract_xml_doc_blocks. split.
  - apply member_lines_increasing.
  - intros k. apply member_lines_iff.
Qed.

(** X3. Members without a comment run right in front of them are never
    reported: the extractor returns no block exactly when no line matching
    the declaration patterns comes right after a comment line, and such a
    file, once read, gets no diagnostic at all. *)
Theorem undocumented_members_not_reported (fs : filesystem)
    (path content : string) :
  fs path = ReadOk content ->
  (extract_xml_doc_blocks content = [] <->
   forall k, ~ documented_at (split_nl content) k) /\
  ((forall k, ~ documented_at (split_nl content) k) ->
   validate_file fs path = []).
Proof.
  intros Hread.
  assert (Hiff : extract_xml_doc_blocks content = [] <->
                 forall k, ~ documented_at (split_nl content) k).
  { unfold extract_xml_doc_blocks. split.
    - intros E k Hk. apply member_lines_iff in Hk. rewrite E in Hk.
      contradiction.
    - intros H. destruct (extract_lines (split_nl content)) as [|b bs] eqn:E;
        auto.
      exfalso. apply (H (member_line b)). apply member_lines_iff.
      rewrite E. now left. }
  split; [exact Hiff|]. intros H.
  unfold validate_file. rewrite Hread.
  apply Hiff in H. now rewrite H.
Qed.

(** ** The flags of a block *)

Lemma doc_step_flags (i : nat) (l : string) (st : scan_state) :
  summary_so_far (doc_step i l st) = (has_summary_open l || summary_so_far st)%bool /\
  example_so_far (doc_step i l st) = (has_example_open l || example_so_far st)%bool /\
  opened_so_far (doc_step i l st) = (opens l || opened_so_far st)%bool.
Proof.
  unfold summary_so_far, example_so_far, opened_so_far,
    has_summary_open, has_example_open, opens, doc_step.
  destruct (st_current_block st) as [b|]; simpl;
    destruct (contains SUMMARY_OPEN (strip l)),
             (contains SUMMARY_CLOSE (strip l)),
             (contains EXAMPLE_OPEN (strip l)),
             (contains CODE_OPEN (strip l)),
             (contains CODE_CLOSE (strip l)); simpl;
    try (destruct (has_summary b) eqn:Hs; simpl; rewrite ?Hs); auto.
Qed.

Lemma scan_flags (run : list string) :
  forall (i : nat) (st : scan_state),
  Forall (fun l => is_doc_line l = true) run ->
  summary_so_far (scan i run st)
    = (existsb has_summary_open run || summary_so_far st)%bool /\
  example_so_far (scan i run st)
    = (existsb has_example_open run || example_so_far st)%bool /\
  opened_so_far (scan i run st)
    = (existsb opens run || opened_so_far st)%bool.
Proof.
  induction run as [|l run IH]; intros i st H; [now repeat split|].
  inversion H as [|? ? Hd H']; subst.
  simpl scan. rewrite step_doc by assumption.
  destruct (IH (S i) (doc_step i l st) H') as (E1 & E2 & E3).
  destruct (doc_step_flags i l st) as (F1 & F2 & F3).
  rewrite E1, E2, E3, F1, F2, F3. cbn [existsb].
  repeat split;
    match goal with
    | |- (?a || (?b || ?c))%bool = _ => destruct a, b, c; reflexivity
    end.
Qed.

(** X4. The flags of a finalized block say whether some line of its run
    holds the marker: has_summary is true exactly when a line of the run
    holds the summary open marker, has_example when one holds the example
    open marker, has_code_csharp when one holds the tagged code open
    marker.  The summary close marker plays no part. *)
Theorem block_flags_from_markers (content : string)
    (pre run post : list string) (decl : string) :
  split_nl content = (pre ++ run ++ decl :: post)%list ->
  is_doc_line (last pre "") = false ->
  run <> [] -> Forall (fun l => is_doc_line l = true) run ->
  is_member_line decl = true ->
  exists b,
    In b (extract_xml_doc_blocks content) /\
    start_line b = List.length pre + 1 /\
    member_line b = List.length pre + List.length run + 1 /\
    has_summary b = existsb has_summary_open run /\
    has_example b = existsb has_example_open run /\
    has_code_csharp b = existsb opens run.
Proof.
  intros E Hpre Hne Hrun Hmem.
  destruct (run_before_member_pushed pre run post decl Hne Hrun Hmem)
    as (b & Hb & He & Hx).
  destruct (scan_closed_after pre 1 Hpre) as (Hnone & _).
  pose proof (scan_docs_start run (1 + List.length pre)
                (scan 1 pre scan_init) Hrun) as Hstart.
  destruct (scan_flags run (1 + List.length pre) (scan 1 pre scan_init) Hrun)
    as (F1 & F2 & F3).
  unfold summary_so_far, example_so_far, opened_so_far, start_or in *.
  rewrite Hb, Hnone in *. rewrite orb_false_r in F1, F2, F3.
  exists (set_member_line (List.length pre + List.length run + 1) b).
  unfold extract_xml_doc_blocks. rewrite E, Hx.
  split; [apply in_or_app; right; now left|].
  simpl. repeat split; auto. lia.
Qed.

(** ** Texts put one after the other *)

Lemma shift_state_step (n i : nat) (l : string) (st : scan_state) :
  step (i + n) l (shift_state n st) = shift_state n (step i l st).
Proof.
  unfold step. destruct (is_doc_line l).
  - unfold doc_step, shift_state; simpl.
    destruct (st_current_block st) as [b|]; simpl;
      destruct (contains SUMMARY_OPEN (strip l)),
               (contains SUMMARY_CLOSE (strip l)),
               (contains EXAMPLE_OPEN (strip l)),
               (contains CODE_OPEN (strip l)),
               (contains CODE_CLOSE (strip l)); simpl;
      try destruct (has_summary b); simpl;
      try destruct (st_in_code st); simpl;
      try destruct (content_match l); reflexivity.
  - unfold other_step, shift_state; simpl.
    destruct (st_current_block st) as [b|]; simpl; auto.
    destruct (is_member_line l); simpl; auto.
    now rewrite map_app.
Qed.

Lemma shift_state_scan (n : nat) (ls : list string) :
  forall (i : nat) (st : scan_state),
  scan (i + n) ls (shift_state n st) = shift_state n (scan i ls st).
Proof.
  induction ls as [|l ls IH]; intros i st; simpl; auto.
  rewrite shift_state_step. apply (IH (S i)).
Qed.

Lemma blocks_from_shift (n : nat) (ls : list string) :
  blocks_from (1 + n) ls = map (shift_block n) (extract_lines ls).
Proof.
  unfold blocks_from, extract_lines.
  change scan_init with (shift_state n scan_init) at 1.
  now rewrite shift_state_scan.
Qed.

Lemma extract_lines_app (a b : list string) :
  is_doc_line (last a "") = false ->
  extract_lines (a ++ b) =
  (extract_lines a ++ map (shift_block (List.length a)) (extract_lines b))%list.
Proof.
  intros Ha. unfold extract_lines at 1. rewrite scan_app.
  destruct (scan_closed_after a 1 Ha) as (Hnone & _ & Hic & Hcc).
  destruct (scan 1 a scan_init) as [bs cur ic cc] eqn:E; simpl in *; subst.
  rewrite scan_frame. unfold extract_lines at 1. rewrite E; simpl.
  f_equal. apply blocks_from_shift.
Qed.

Lemma split_aux_app (a b : string) :
  split_aux (a ++ String nl b) =
  (fst (split_aux a), (snd (split_aux a) ++ split_nl b)%list).
Proof.
  induction a as [|c a IH]; simpl.
  - unfold split_nl. now destruct (split_aux b).
  - rewrite IH. destruct (split_aux a) as (l, ls); simpl.
    now destruct (Ascii.eqb c nl).
Qed.

Lemma split_nl_app (a b : string) :
  split_nl (a ++ String nl b) = (split_nl a ++ split_nl b)%list.
Proof.
  unfold split_nl at 1 2. rewrite split_aux_app.
  now destruct (split_aux a).
Qed.

(** X5. Two texts put one after the other, the first not ending in a
    comment line: the blocks are those of the first text followed by those
    of the second, with the line numbers of the second moved down by the
    number of lines of the first. *)
Theorem extract_of_concatenation (a b : string) :
  is_doc_line (last (split_nl a) "") = false ->
  extract_xml_doc_blocks (a ++ String nl b) =
  (extract_xml_doc_blocks a ++
   map (shift_block (List.length (split_nl a))) (extract_xml_doc_blocks b))%list.
Proof.
  intros Ha. unfold extract_xml_doc_blocks.
  rewrite split_nl_app. now apply extract_lines_app.
Qed.

(* ================================================================== *)
(** * Further properties of the checker and of main *)

(** ** Where the diagnostics are *)

Lemma StronglySorted_app {A : Type} (R : A -> A -> Prop) (l1 l2 : list A) :
  StronglySorted R l1 -> StronglySorted R l2 ->
  (forall x y, In x l1 -> In y l2 -> R x y) ->
  StronglySorted R (l1 ++ l2).
Proof.
  induction 1 as [|a l Hs IH Ha]; intros H2 Hx; simpl; auto.
  constructor.
  - apply IH; auto. intros x y Hi Hj. apply Hx; simpl; auto.
  - apply Forall_app; split; auto.
    apply Forall_forall. intros y Hy. apply Hx; simpl; auto.
Qed.

Lemma constant_sorted (n : nat) (l : list nat) :
  Forall (fun x => x = n) l -> StronglySorted le l.
Proof.
  induction 1 as [|a l Ha Hl IH]; constructor; auto.
  subst. eapply Forall_impl; [|exact Hl]. simpl; intros; lia.
Qed.

Lemma check_blocks_sorted (path : string) (bs : list XmlDocBlock) :
  StronglySorted (fun a b => start_line a < start_line b) bs ->
  StronglySorted le (map line (flat_map (check_block path) bs)).
Proof.
  induction 1 as [|b bs Hs IH Hb]; simpl; [constructor|].
  rewrite map_app. apply StronglySorted_app; auto.
  - apply (constant_sorted (start_line b)).
    rewrite Forall_map. apply Forall_forall.
    intros d Hd. now apply check_block_line in Hd.
  - intros x y Hx Hy.
    apply in_map_iff in Hx. destruct Hx as (d & <- & Hd).
    apply in_map_iff in Hy. destruct Hy as (d' & <- & Hd').
    apply in_flat_map in Hd'. destruct Hd' as (b' & Hb' & Hd').
    rewrite (check_block_line path b d Hd), (check_block_line path b' d' Hd').
    rewrite Forall_forall in Hb. specialize (Hb b' Hb'). lia.
Qed.

Lemma extract_start_sorted (content : string) :
  StronglySorted (fun a b => start_line a < start_line b)
    (extract_xml_doc_blocks content).
Proof.
  unfold extract_xml_doc_blocks.
  pose proof (extract_lines_range (split_nl content)) as Hr.
  pose proof (extract_lines_sorted (split_nl content)) as Hs.
  revert Hr Hs. generalize (extract_lines (split_nl content)).
  induction l as [|a l IH]; intros Hr Hs; [constructor|].
  inversion Hr as [|? ? Ha Hr']; inversion Hs as [|? ? Hs' Hall]; subst.
  constructor; auto.
  eapply Forall_impl; [|exact Hall].
  intros b Hb; simpl in *. destruct Ha; lia.
Qed.

(** X7. The diagnostics of a file come out in file order: their line
    numbers never decrease along the list, whether the file could be read
    or not. *)
Theorem diagnostics_in_file_order (fs : filesystem) (path : string) :
  StronglySorted le (map line (validate_file fs path)).
Proof.
  unfold validate_file. destruct (fs path) as [content|e].
  - apply check_blocks_sorted, extract_start_sorted.
  - simpl. repeat constructor.
Qed.

Lemma check_block_fields (path : string) (b : XmlDocBlock) (d : DocIssue) :
  In d (check_block path b) ->
  file d = path /\ (issue_type d = "error" \/ issue_type d = "warning").
Proof.
  unfold check_block.
  destruct (negb (has_summary b));
    [|destruct (negb (has_example b) || negb (has_code_csharp b))%bool].
  - intros [<- | []]; auto.
  - intros [<- | []]; auto.
  - intros H. apply in_map_iff in H. destruct H as (p & <- & _). auto.
Qed.

(** X8. Every diagnostic of a file that was read names that file, is an
    error or a warning, and points at the first line of a comment run of
    the file: the line with its number is a comment line and the line
    before it, if any, is not. *)
Theorem diagnostics_point_at_run_start (fs : filesystem)
    (path content : string) (d : DocIssue) :
  fs path = ReadOk content ->
  In d (validate_file fs path) ->
  file d = path /\
  (issue_type d = "error" \/ issue_type d = "warning") /\
  (exists l, line_at (split_nl content) (line d) = Some l /\
             is_doc_line l = true) /\
  (forall l, line_at (split_nl content) (line d - 1) = Some l ->
             is_doc_line l = false).
Proof.
  intros Hread Hin. unfold validate_file in Hin. rewrite Hread in Hin.
  apply in_flat_map in Hin. destruct Hin as (b & Hb & Hd).
  destruct (check_block_fields path b d Hd) as (Hf & Ht).
  rewrite (check_block_line path b d Hd).
  pose proof (extract_lines_sound (split_nl content)) as Hs.
  rewrite Forall_forall in Hs.
  destruct (Hs b Hb) as [H1 Hr _ Hdocs _ Hmax].
  split; [exact Hf|]. split; [exact Ht|].
  split; [apply Hdocs; lia | exact Hmax].
Qed.

(** ** How many diagnostics *)

Lemma check_block_counts (path : string) (b : XmlDocBlock) :
  List.length (filter is_error (check_block path b)) <= 1 /\
  List.length (check_block path b) <= 5.
Proof.
  unfold check_block.
  destruct (negb (has_summary b));
    [|destruct (negb (has_example b) || negb (has_code_csharp b))%bool];
    simpl; try lia.
  rewrite length_map. split.
  - induction (check_for_placeholders (code_content b)); simpl; lia.
  - unfold check_for_placeholders.
    etransitivity; [apply filter_length_le|]. simpl; lia.
Qed.

Lemma check_blocks_counts (path : string) (bs : list XmlDocBlock) :
  List.length (filter is_error (flat_map (check_block path) bs))
    <= List.length bs /\
  List.length (flat_map (check_block path) bs) <= 5 * List.length bs.
Proof.
  induction bs as [|b bs (IH1 & IH2)]; simpl; [lia|].
  rewrite filter_app, !length_app.
  destruct (check_block_counts path b). lia.
Qed.

(** X9. A file that was read gets at most one error for each line
    matching the declaration patterns, and at most five diagnostics for
    each such line. *)
Theorem diagnostics_bounded (fs : filesystem) (path content : string) :
  fs path = ReadOk content ->
  List.length (filter is_error (validate_file fs path))
    <= count_member_lines (split_nl content) /\
  List.length (validate_file fs path)
    <= 5 * count_member_lines (split_nl content).
Proof.
  intros Hread. unfold validate_file. rewrite Hread.
  destruct (check_blocks_counts path (extract_xml_doc_blocks content))
    as (H1 & H2).
  pose proof (scan_blocks_count 1 (split_nl content) scan_init) as Hc.
  simpl in Hc. unfold extract_xml_doc_blocks, extract_lines in *. lia.
Qed.

(** ** The counters and the verdict of main *)

Lemma count_issues_counters (ds : list DocIssue) (r : report) :
  let r' := fold_left count_issue ds r in
  total_issues r' = total_issues r + List.length ds /\
  total_errors r' = total_errors r + List.length (filter is_error ds) /\
  total_warnings r' =
    total_warnings r + List.length (filter (fun d => negb (is_error d)) ds) /\
  files_with_issues r' = files_with_issues r.
Proof.
  revert r; induction ds as [|d ds IH]; intros r; simpl.
  - repeat split; lia.
  - destruct (IH (count_issue r d)) as (E1 & E2 & E3 & E4).
    rewrite E1, E2, E3, E4. unfold count_issue, is_error.
    destruct (String.eqb (issue_type d) "error"); simpl;
      repeat split; lia.
Qed.

Lemma run_files_counters (fs : filesystem) (files : list string) (r : report) :
  let r' := fold_left (count_file fs) files r in
  let ds := flat_map (validate_file fs) files in
  total_issues r' = total_issues r + List.length ds /\
  total_errors r' = total_errors r + List.length (filter is_error ds) /\
  total_warnings r' =
    total_warnings r + List.length (filter (fun d => negb (is_error d)) ds) /\
  files_with_issues r' =
    files_with_issues r + List.length (filter (has_issues fs) files).
Proof.
  revert r; induction files as [|f files IH]; intros r; simpl.
  - repeat split; lia.
  - destruct (IH (count_file fs r f)) as (E1 & E2 & E3 & E4).
    rewrite E1, E2, E3, E4. unfold count_file.
    match goal with |- context [fold_left count_issue ?ds ?r0] =>
      destruct (count_issues_counters ds r0) as (F1 & F2 & F3 & F4) end.
    rewrite F1, F2, F3, F4; simpl.
    rewrite !filter_app, !length_app. unfold has_issues.
    destruct (validate_file fs f); simpl; repeat split; lia.
Qed.

Lemma filter_split_length {A : Type} (f : A -> bool) (l : list A) :
  List.length (filter f l) + List.length (filter (fun x => negb (f x)) l)
  = List.length l.
Proof. induction l as [|a l IH]; simpl; auto. destruct (f a); simpl; lia. Qed.

(** X10. The totals main prints are those of the diagnostics it printed:
    every diagnostic of every file in the list is printed, in order; the
    issue total is their number, the error total the number of errors
    among them, the warning total the number of the others, so errors and
    warnings add up to the issue total; every file is counted as scanned
    and the files with issues are those with at least one diagnostic. *)
Theorem main_totals (fs : filesystem) (files : list string) :
  let r := run_files fs files in
  printed r = flat_map (validate_file fs) files /\
  total_issues r = List.length (printed r) /\
  total_errors r = List.length (filter is_error (printed r)) /\
  total_errors r + total_warnings r = total_issues r /\
  files_scanned r = List.length files /\
  files_with_issues r = List.length (filter (has_issues fs) files) /\
  files_with_issues r <= files_scanned r.
Proof.
  intros r. subst r. unfold run_files.
  destruct (fold_count_file fs files report_init) as (P1 & P2).
  destruct (run_files_counters fs files report_init) as (E1 & E2 & E3 & E4).
  simpl in *. rewrite P1, P2, E1, E2, E3, E4.
  pose proof (filter_split_length is_error
                (flat_map (validate_file fs) files)).
  pose proof (filter_length_le (has_issues fs) files).
  repeat split; lia.
Qed.

Lemma filter_nonempty {A : Type} (f : A -> bool) (l : list A) :
  0 < List.length (filter f l) <-> exists x, In x l /\ f x = true.
Proof.
  split.
  - destruct (filter f l) as [|x xs] eqn:E; simpl; [lia|]. intros _.
    exists x. apply filter_In. rewrite E. now left.
  - intros (x & Hx & Hf).
    assert (In x (filter f l)) by (apply filter_In; auto).
    destruct (filter f l); simpl in *; [contradiction|lia].
Qed.

(** X11. main exits with status 1 exactly when some file of the list got an
    error diagnostic, and with status 0 otherwise: warnings alone never
    fail the run.  The closing message is the plain pass exactly when no
    file got any diagnostic. *)
Theorem main_exit_status (fs : filesystem) (files : list string) :
  let r := run_files fs files in
  (exit_code r = 1 <->
   exists f d, In f files /\ In d (validate_file fs f) /\
               issue_type d = "error") /\
  (exit_code r = 0 <->
   forall f d, In f files -> In d (validate_file fs f) ->
               issue_type d <> "error") /\
  (main_verdict r = Passed <->
   forall f, In f files -> validate_file fs f = []).
Proof.
  intros r.
  destruct (main_totals fs files) as (P & Ti & Te & Tsum & _).
  fold r in P, Ti, Te, Tsum.
  assert (Herr : 0 < total_errors r <->
            exists f d, In f files /\ In d (validate_file fs f) /\
                        issue_type d = "error").
  { rewrite Te, P, filter_nonempty. split.
    - intros (d & Hd & He). apply in_flat_map in Hd.
      destruct Hd as (f & Hf & Hd). exists f, d. repeat split; auto.
      now apply String.eqb_eq.
    - intros (f & d & Hf & Hd & He). exists d. split.
      + apply in_flat_map; eauto.
      + unfold is_error. now apply String.eqb_eq. }
  unfold exit_code, main_verdict.
  destruct (0 <? total_errors r) eqn:E.
  - apply Nat.ltb_lt in E. repeat split; try discriminate; try tauto.
    + intros H. apply Herr in E. destruct E as (f & d & Hf & Hd & He).
      exfalso. exact (H f d Hf Hd He).
    + intros H. exfalso. apply Herr in E.
      destruct E as (f & d & Hf & Hd & _). rewrite (H f Hf) in Hd.
      contradiction.
  - apply Nat.ltb_ge in E. split; [|split].
    + split; [discriminate|]. intros H. apply Herr in H. lia.
    + split; auto. intros _ f d Hf Hd He.
      assert (0 < total_errors r) by (apply Herr; eauto). lia.
    + assert (Hw : total_warnings r = List.length (printed r)) by lia.
      destruct (0 <? total_warnings r) eqn:W.
      * apply Nat.ltb_lt in W. split; [discriminate|]. intros H. exfalso.
        rewrite Hw, P in W.
        destruct (flat_map (validate_file fs) files) as [|d ds] eqn:F;
          simpl in W; [lia|].
        assert (Hd : In d (flat_map (validate_file fs) files))
          by (rewrite F; now left).
        apply in_flat_map in Hd. destruct Hd as (f & Hf & Hd).
        rewrite (H f Hf) in Hd. contradiction.
      * apply Nat.ltb_ge in W. split; auto. intros _ f Hf.
        destruct (validate_file fs f) as [|d ds] eqn:F; auto. exfalso.
        assert (Hd : In d (flat_map (validate_file fs) files)).
        { apply in_flat_map. exists f. rewrite F. split; auto. now left. }
        rewrite <- P in Hd. destruct (printed r); simpl in *; [auto|lia].
Qed.

(** X12. A file of the list that cannot be read makes main fail: the exit
    status is 1 and the closing message is the failure, whatever the other
    files hold. *)
Theorem unreadable_file_fails_run (fs : filesystem) (files : list string)
    (path e : string) :
  In path files -> fs path = ReadError e ->
  exit_code (run_files fs files) = 1 /\
  exists n, 0 < n /\ main_verdict (run_files fs files) = Failed n.
Proof.
  intros Hin Hread.
  destruct (main_totals fs files) as (P & _ & Te & _).
  assert (Hpos : 0 < total_errors (run_files fs files)).
  { rewrite Te, P. apply filter_nonempty.
    exists (mkDocIssue path 0 "error" (MSG_READ e)). split; [|reflexivity].
    apply in_flat_map. exists path. split; auto.
    unfold validate_file. rewrite Hread. now left. }
  unfold exit_code, main_verdict.
  apply Nat.ltb_lt in Hpos. rewrite Hpos. split; auto.
  eexists; split; [|reflexivity]. now apply Nat.ltb_lt.
Qed.

(* ================================================================== *)
(** * When a pattern is found *)

Lemma star_c_complete (p : ascii -> bool) (k : cont) (w s' : string)
    (g : caps) :
  forall pos : nat,
  allb p w = true -> (forall pos', k pos' s' g <> None) ->
  star_c p k pos (w ++ s') g <> None.
Proof.
  induction w as [|a w IH]; intros pos Hw Hk; simpl.
  - destruct s' as [|b s']; simpl; auto.
    destruct (p b); auto.
    destruct (star_c p k (S pos) s' g); [discriminate|auto].
  - simpl in Hw. apply andb_true_iff in Hw. destruct Hw as (Ha & Hw).
    rewrite Ha. specialize (IH (S pos) Hw Hk).
    destruct (star_c p k (S pos) (w ++ s') g); [discriminate|congruence].
Qed.

(** Whenever a pattern without [^] can consume a prefix of the text and
    the continuation accepts what is left, the matcher succeeds. *)
Lemma bt_complete (icase : bool) (r : regex) :
  nobol r = true ->
  forall (n : nat) (k : cont) (pos : nat) (s s' : string) (g : caps),
  den icase r s s' -> (forall pos' g', k pos' s' g' <> None) ->
  bt icase r n k pos s g <> None.
Proof.
  induction r as [|c|c|c|r IH|r1 IH1 r2 IH2|r1 IH1 r2 IH2|r IH|r IH| |];
    intros Hb n k pos s s' g Hd Hk; simpl in Hb, Hd |- *;
    try discriminate.
  - subst; auto.
  - destruct Hd as (a & -> & Ha). rewrite Ha. auto.
  - destruct Hd as (w & -> & Hw). apply star_c_complete; auto.
  - destruct Hd as (a & w & -> & Ha & Hw). rewrite Ha.
    apply star_c_complete; auto.
  - destruct Hd as [-> | Hd].
    + destruct (bt icase r n k pos s g); [discriminate|auto].
    + specialize (IH Hb n k pos s s' g Hd Hk).
      destruct (bt icase r n k pos s g); [discriminate|congruence].
  - apply andb_true_iff in Hb. destruct Hb as (Hb1 & Hb2).
    destruct Hd as (t & Hd1 & Hd2).
    apply (IH1 Hb1 _ _ _ _ t _ Hd1). intros pos' g'.
    apply (IH2 Hb2 _ _ _ _ s' _ Hd2 Hk).
  - apply andb_true_iff in Hb. destruct Hb as (Hb1 & Hb2).
    destruct Hd as [Hd | Hd].
    + specialize (IH1 Hb1 n k pos s s' g Hd Hk).
      destruct (bt icase r1 n k pos s g); [discriminate|congruence].
    + destruct (bt icase r1 n k pos s g); [discriminate|].
      apply (IH2 Hb2 _ _ _ _ s' _ Hd Hk).
  - apply (IH Hb _ _ _ _ s' _ Hd). intros pos' g'. apply Hk.
  - apply (IH Hb _ _ _ _ s' _ Hd Hk).
  - destruct Hd as (-> & [-> | ->]); auto. simpl.
    unfold nl at 1. simpl. auto.
Qed.

Lemma search_from_complete (icase : bool) (r : regex) (a b s' : string) :
  nobol r = true -> den icase r b s' ->
  forall pos, search_from icase r pos (a ++ b) <> None.
Proof.
  intros Hb Hd. induction a as [|c a IH]; intros pos.
  - simpl append.
    assert (H : bt icase r 0 accept pos b [] <> None)
      by (apply (bt_complete icase r Hb _ _ _ _ s' _ Hd); discriminate).
    destruct b; simpl; destruct (bt icase r 0 accept pos _ []);
      try discriminate; congruence.
  - simpl. destruct (bt icase r 0 accept pos (String c (a ++ b)) []);
      [discriminate|]. apply IH.
Qed.

Lemma search_from_sound (icase : bool) (r : regex) (s : string) :
  forall pos m, search_from icase r pos s = Some m ->
  exists a b s', s = a ++ b /\ den icase r b s'.
Proof.
  induction s as [|c s IH]; intros pos m H; simpl in H.
  - destruct (bt icase r 0 accept pos "" []) as [m'|] eqn:E; [|discriminate].
    destruct (bt_sound _ _ _ _ _ _ _ _ E) as (_ & s' & _ & Hd & _).
    exists "", "", s'. auto.
  - destruct (bt icase r 0 accept pos (String c s) []) as [m'|] eqn:E.
    + destruct (bt_sound _ _ _ _ _ _ _ _ E) as (_ & s' & _ & Hd & _).
      exists "", (String c s), s'. auto.
    + destruct (IH _ _ H) as (a & b & s' & -> & Hd).
      exists (String c a), b, s'. auto.
Qed.

(** [re.search] finds a pattern without [^] exactly when the pattern can
    consume some part of the text. *)
Lemma search_iff (icase : bool) (r : regex) (s : string) :
  nobol r = true ->
  (is_match (search icase r s) = true <->
   exists a b s', s = a ++ b /\ den icase r b s').
Proof.
  intros Hb. unfold search. split.
  - destruct (search_from icase r 0 s) as [m|] eqn:E; [|discriminate].
    intros _. eapply search_from_sound; eauto.
  - intros (a & b & s' & -> & Hd).
    pose proof (search_from_complete icase r a b s' Hb Hd 0) as H.
    destruct (search_from icase r 0 (a ++ b)); [reflexivity|congruence].
Qed.

(** The same for a pattern that starts with [^]: it must consume a prefix
    of the whole text. *)
Lemma search_bol_iff (r : regex) (s : string) :
  nobol r = true ->
  (is_match (search false (Cat Bol r) s) = true <-> exists s', den false r s s').
Proof.
  intros Hb. split; [apply search_bol_den|].
  intros (s' & Hd). rewrite search_bol.
  assert (H : bt false r 0 accept 0 s [] <> None)
    by (apply (bt_complete false r Hb _ _ _ _ s' _ Hd); discriminate).
  destruct (bt false r 0 accept 0 s []); [reflexivity|congruence].
Qed.

Lemma den_append (icase : bool) (r : regex) (x : string) :
  noeol r = true ->
  forall s s', den icase r s s' -> den icase r (s ++ x) (s' ++ x).
Proof.
  induction r as [|c|c|c|r IH|r1 IH1 r2 IH2|r1 IH1 r2 IH2|r IH|r IH| |];
    intros He s s' Hd; simpl in He, Hd |- *; try discriminate.
  - now subst.
  - destruct Hd as (a & -> & Ha). exists a. auto.
  - destruct Hd as (w & -> & Hw). exists w. now rewrite append_assoc.
  - destruct Hd as (a & w & -> & Ha & Hw). exists a, w.
    simpl. now rewrite append_assoc.
  - destruct Hd as [-> | Hd]; auto.
  - apply andb_true_iff in He. destruct He as (He1 & He2).
    destruct Hd as (t & Hd1 & Hd2). exists (t ++ x). auto.
  - apply andb_true_iff in He. destruct He as (He1 & He2).
    destruct Hd as [Hd | Hd]; auto.
  - auto.
  - auto.
  - now subst.
Qed.

(* ================================================================== *)
(** * Further properties of the placeholder check *)

Lemma placeholder_patterns_plain :
  forallb (fun p => nobol p && noeol p) PLACEHOLDER_PATTERNS = true.
Proof. reflexivity. Qed.

Lemma placeholder_pattern_plain (p : regex) :
  In p PLACEHOLDER_PATTERNS -> nobol p = true /\ noeol p = true.
Proof.
  intros H. pose proof placeholder_patterns_plain as Hall.
  rewrite forallb_forall in Hall. now apply andb_true_iff, Hall.
Qed.

Lemma in_check_for_placeholders (p : regex) (text : string) :
  In p (check_for_placeholders text) <->
  In p PLACEHOLDER_PATTERNS /\
  exists a b s', text = a ++ b /\ den true p b s'.
Proof.
  unfold check_for_placeholders. rewrite filter_In. split.
  - intros (Hin & Hm). split; auto.
    apply search_iff; auto. now apply placeholder_pattern_plain.
  - intros (Hin & Hd). split; auto.
    apply search_iff; auto. now apply placeholder_pattern_plain.
Qed.

(** X13. A placeholder found in a code text is found in every text that
    holds this text: what is written before or after it never hides it. *)
Theorem placeholder_found_in_context (p : regex) (text before after : string) :
  In p (check_for_placeholders text) ->
  In p (check_for_placeholders (before ++ text ++ after)).
Proof.
  rewrite !in_check_for_placeholders.
  intros (Hin & a & b & s' & -> & Hd). split; auto.
  exists (before ++ a), (b ++ after), (s' ++ after). split.
  - now rewrite !append_assoc.
  - apply den_append; auto. now apply placeholder_pattern_plain.
Qed.

(** ** Literal patterns *)

Lemma den_lit_ci (x : string) :
  forall s, (exists s', den true (lit x) s s') <-> prefix_ci x s = true.
Proof.
  induction x as [|c x IH]; intros s.
  - simpl. split; [now destruct s|]. intros _. now exists s.
  - destruct x as [|d x].
    + simpl. split.
      * intros (s' & a & -> & Ha). now rewrite Ha.
      * destruct s as [|b s]; [discriminate|]. intros H.
        apply andb_true_iff in H. destruct H as (H & _).
        exists s, b. auto.
    + change (lit (String c (String d x)))
        with (Cat (Chr (Lit c)) (lit (String d x))).
      split.
      * intros (s' & t & (a & -> & Ha) & Hd).
        cbn [prefix_ci]. cbn [cset_mem] in Ha. rewrite Ha.
        apply IH. eauto.
      * destruct s as [|b s]; [discriminate|]. cbn [prefix_ci].
        intros H. apply andb_true_iff in H. destruct H as (Hb & H).
        apply IH in H. destruct H as (s' & Hd).
        exists s', s. split; auto. exists b. auto.
Qed.

Lemma contains_ci_iff (x s : string) :
  contains_ci x s = true <-> exists a b, s = a ++ b /\ prefix_ci x b = true.
Proof.
  induction s as [|c s IH]; simpl.
  - rewrite orb_false_r. split.
    + intros H. now exists "", "".
    + intros (a & b & E & H). destruct a; [|discriminate].
      simpl in E. now subst.
  - rewrite orb_true_iff, IH. split.
    + intros [H | (a & b & -> & H)].
      * now exists "", (String c s).
      * now exists (String c a), b.
    + intros (a & b & E & H). destruct a as [|c' a]; simpl in E.
      * left. now subst.
      * inversion E; subst. right. eauto.
Qed.

Lemma literal_placeholder (x text : string) :
  In (lit x) PLACEHOLDER_PATTERNS ->
  (In (lit x) (check_for_placeholders text) <-> contains_ci x text = true).
Proof.
  intros Hin. rewrite in_check_for_placeholders, contains_ci_iff. split.
  - intros (_ & a & b & s' & -> & Hd). exists a, b. split; auto.
    apply den_lit_ci. eauto.
  - intros (a & b & -> & H). split; auto.
    apply den_lit_ci in H. destruct H as (s' & Hd). eauto.
Qed.

(** X14. The warnings for TODO and for placeholder are given exactly when
    the code text holds the word, in any mix of upper and lower case and
    wherever it stands, also inside a longer word. *)
Theorem word_placeholders_ignore_case (text : string) :
  (In (lit "TODO") (check_for_placeholders text) <->
   contains_ci "TODO" text = true) /\
  (In (lit "placeholder") (check_for_placeholders text) <->
   contains_ci "placeholder" text = true).
Proof.
  split; apply literal_placeholder; simpl; auto.
Qed.

Lemma lower_dot (b : ascii) :
  Ascii.eqb (lower b) (lower ".") = Ascii.eqb b ".".
Proof. destruct b as [[] [] [] [] [] [] [] []]; reflexivity. Qed.

Lemma prefix_dots (n : nat) (s : string) :
  prefix_ci (string_of_list_ascii (repeat "."%char n)) s
  = prefix (string_of_list_ascii (repeat "."%char n)) s.
Proof.
  revert s; induction n as [|n IH]; intros s.
  - now destruct s.
  - destruct s as [|b s]; [reflexivity|].
    cbn [repeat string_of_list_ascii prefix_ci prefix].
    rewrite lower_dot, IH.
    destruct (ascii_dec "." b) as [<- | Hne]; [reflexivity|].
    destruct (Ascii.eqb b ".") eqn:E; auto.
    apply Ascii.eqb_eq in E. congruence.
Qed.

Lemma contains_dots (n : nat) (s : string) :
  contains_ci (string_of_list_ascii (repeat "."%char n)) s
  = contains (string_of_list_ascii (repeat "."%char n)) s.
Proof.
  induction s as [|c s IH]; simpl; rewrite prefix_dots; auto.
  now rewrite IH.
Qed.

(** X15. The warning for dots is given exactly when the code text holds
    six dots in a row; a text whose longest row of dots has five gets
    none. *)
Theorem dots_placeholder_needs_six (text : string) :
  In (lit "......") (check_for_placeholders text) <->
  contains "......" text = true.
Proof.
  rewrite literal_placeholder by (simpl; auto 6).
  pose proof (contains_dots 6 text) as H.
  cbn [repeat string_of_list_ascii] in H. now rewrite H.
Qed.

(** ** The phrase pattern *)

Lemma den_lit_same (x y s : string) :
  same_ci x y = true -> den true (lit x) (y ++ s) s.
Proof.
  revert y; induction x as [|c x IH]; intros y H.
  - destruct y; [reflexivity|discriminate].
  - destruct y as [|b y]; [discriminate|]. simpl in H.
    apply andb_true_iff in H. destruct H as (Hb & H).
    destruct x as [|d x].
    + destruct y; [|discriminate]. simpl. exists b. auto.
    + change (lit (String c (String d x)))
        with (Cat (Chr (Lit c)) (lit (String d x))).
      exists (y ++ s). split; [|now apply IH].
      exists b. auto.
Qed.

Lemma den_plus_space (icase : bool) (w s : string) :
  w <> "" -> allb isspace w = true -> den icase (Plus Space) (w ++ s) s.
Proof.
  destruct w as [|a w]; [congruence|]. intros _ H.
  simpl in H. apply andb_true_iff in H. destruct H as (Ha & Hw).
  exists a, w. auto.
Qed.

Lemma den_star_space (icase : bool) (w s : string) :
  allb isspace w = true -> den icase (Star Space) (w ++ s) s.
Proof. intros H. exists w. auto. Qed.

(** X16. The phrase warning is given for every code text that holds the
    four words invoke, the, member, here in this order, in any letter case,
    with any non-empty whitespace between them; a line break counts as
    whitespace, so the phrase is found across the lines of the sample. *)
Theorem phrase_found_across_lines
    (before after x1 w1 x2 w2 x3 w3 x4 : string) :
  same_ci "invoke" x1 = true -> same_ci "the" x2 = true ->
  same_ci "member" x3 = true -> same_ci "here" x4 = true ->
  w1 <> "" -> allb isspace w1 = true ->
  w2 <> "" -> allb isspace w2 = true ->
  w3 <> "" -> allb isspace w3 = true ->
  In PHRASE_PATTERN
     (check_for_placeholders
        (before ++ (x1 ++ w1 ++ x2 ++ w2 ++ x3 ++ w3 ++ x4 ++ after))).
Proof.
  intros H1 H2 H3 H4 N1 S1 N2 S2 N3 S3.
  apply in_check_for_placeholders. split; [now left|].
  exists before, (x1 ++ w1 ++ x2 ++ w2 ++ x3 ++ w3 ++ x4 ++ after), after.
  split; [reflexivity|].
  unfold PHRASE_PATTERN. cbn [cats].
  eexists; split; [now apply den_lit_same|].
  eexists; split; [now apply den_plus_space|].
  eexists; split; [now apply den_lit_same|].
  eexists; split; [now apply den_plus_space|].
  eexists; split; [now apply den_lit_same|].
  eexists; split; [now apply den_plus_space|].
  now apply den_lit_same.
Qed.

(* ================================================================== *)
(** * Further properties of the declaration patterns *)

Lemma first_match_complete (ps : list regex) (l : string) (p : regex) :
  In p ps -> is_match (search false p l) = true -> first_match ps l = true.
Proof.
  induction ps as [|q ps IH]; simpl; [contradiction|].
  intros [-> | Hin] Hm.
  - now rewrite Hm.
  - destruct (is_match (search false q l)); auto.
Qed.

Lemma member_tails_plain :
  forallb (fun t => nobol (decl_body t) && noeol (decl_body t)) MEMBER_TAILS
  = true.
Proof. reflexivity. Qed.

Lemma member_tail_plain (t : list regex) :
  In t MEMBER_TAILS ->
  nobol (decl_body t) = true /\ noeol (decl_body t) = true.
Proof.
  intros H. pose proof member_tails_plain as Hall.
  rewrite forallb_forall in Hall. now apply andb_true_iff, Hall.
Qed.

(** A line is a declaration line exactly when one of the eleven patterns
    can consume a prefix of it. *)
Lemma is_member_line_iff (l : string) :
  is_member_line l = true <->
  exists t s', In t MEMBER_TAILS /\ den false (decl_body t) l s'.
Proof.
  unfold is_member_line. rewrite member_patterns_shape. split.
  - intros H. destruct (first_match_exists _ _ H) as (p & Hp & Hm).
    apply in_map_iff in Hp. destruct Hp as (t & <- & Ht).
    apply search_bol_den in Hm. destruct Hm as (s' & Hd). eauto.
  - intros (t & s' & Ht & Hd).
    apply (first_match_complete _ _ (with_head t)).
    + now apply in_map.
    + apply search_bol_iff; eauto. now apply member_tail_plain.
Qed.

(** X17. A recognised declaration line stays recognised whatever is
    written after it on the line: an opening brace, a body, a trailing
    comment. *)
Theorem member_line_with_trailing_text (l x : string) :
  is_member_line l = true -> is_member_line (l ++ x) = true.
Proof.
  rewrite !is_member_line_iff. intros (t & s' & Ht & Hd).
  exists t, (s' ++ x). split; auto.
  apply den_append; auto. now apply member_tail_plain.
Qed.

Lemma lstrip_nonspace (c : ascii) (s : string) :
  isspace c = false -> lstrip (String c s) = String c s.
Proof. intros H. simpl. now rewrite H. Qed.

Lemma den_decl_body_lstrip (t : list regex) (l s' : string) :
  den false (decl_body t) l s' <-> den false (decl_body t) (lstrip l) s'.
Proof.
  unfold decl_body. cbn [den]. split.
  - intros (s1 & (w & -> & Hw) & s2 & Hv & Hrest).
    exists s1. split; [|eauto]. exists "". split; [|reflexivity].
    destruct (den_visibility _ _ Hv) as (c & u & -> & Hc).
    rewrite lstrip_spaces by assumption.
    rewrite lstrip_nonspace; [reflexivity|].
    destruct Hc; subst; reflexivity.
  - intros (s1 & (w & E & Hw) & Hrest).
    destruct (lstrip_split l) as (w0 & E0 & Hw0).
    exists s1. split; auto. exists (w0 ++ w). split.
    + rewrite append_assoc, <- E. exact E0.
    + change (allb isspace (w0 ++ w) = true).
      change (allb isspace w = true) in Hw.
      rewrite allb_app, Hw0, Hw. reflexivity.
Qed.

(** Indentation plays no part in recognising a declaration line. *)
Lemma is_member_line_lstrip (l : string) :
  is_member_line (lstrip l) = is_member_line l.
Proof.
  destruct (is_member_line l) eqn:E.
  - apply is_member_line_iff in E. destruct E as (t & s' & Ht & Hd).
    apply is_member_line_iff. exists t, s'. split; auto.
    now apply (proj1 (den_decl_body_lstrip t l s')).
  - destruct (is_member_line (lstrip l)) eqn:E'; auto.
    apply is_member_line_iff in E'. destruct E' as (t & s' & Ht & Hd).
    rewrite <- E. symmetry. apply is_member_line_iff.
    exists t, s'. split; auto.
    now apply (proj2 (den_decl_body_lstrip t l s')).
Qed.

Lemma step_same_but_indent (i : nat) (l l' : string) (st : scan_state) :
  same_but_indent l l' ->
  allb not_nl l = true -> allb not_nl l' = true ->
  step i l' st = step i l st.
Proof.
  unfold same_but_indent. intros E Hnl Hnl'.
  assert (Hstrip : strip l' = strip l) by (unfold strip; now rewrite E).
  assert (Hdoc : is_doc_line l' = is_doc_line l)
    by (unfold is_doc_line; now rewrite Hstrip).
  unfold step. rewrite Hdoc. destruct (is_doc_line l) eqn:D.
  - unfold doc_step. rewrite Hstrip.
    rewrite (content_match_doc l D Hnl).
    rewrite (content_match_doc l') by (auto; congruence).
    unfold line_text. now rewrite E.
  - unfold other_step.
    now rewrite <- (is_member_line_lstrip l'), E, is_member_line_lstrip.
Qed.

Lemma scan_same_but_indent (ls ls' : list string) :
  Forall2 same_but_indent ls ls' ->
  Forall (fun l => allb not_nl l = true) ls ->
  Forall (fun l => allb not_nl l = true) ls' ->
  forall i st, scan i ls' st = scan i ls st.
Proof.
  induction 1 as [|l l' ls ls' Hl Hls IH]; intros H1 H2 i st; simpl; auto.
  inversion H1; inversion H2; subst.
  rewrite (step_same_but_indent i l l') by assumption. now apply IH.
Qed.

(** X6. Indentation never matters: two texts whose lines differ only in
    the whitespace before their first visible character give the same
    blocks, with the same line numbers, flags and code text. *)
Theorem extraction_ignores_indentation (a b : string) :
  Forall2 same_but_indent (split_nl a) (split_nl b) ->
  extract_xml_doc_blocks b = extract_xml_doc_blocks a.
Proof.
  intros H. unfold extract_xml_doc_blocks, extract_lines.
  now rewrite (scan_same_but_indent (split_nl a) (split_nl b) H
                 (split_nl_no_nl a) (split_nl_no_nl b)).
Qed.

(** ** Lines that are recognised *)

Lemma den_lit_plain (x s : string) : den false (lit x) (x ++ s) s.
Proof.
  induction x as [|c x IH]; [reflexivity|].
  destruct x as [|d x].
  - simpl. exists c. split; auto. apply Ascii.eqb_refl.
  - change (lit (String c (String d x)))
      with (Cat (Chr (Lit c)) (lit (String d x))).
    exists (String d x ++ s). split; auto.
    exists c. split; auto. simpl. apply Ascii.eqb_refl.
Qed.

Lemma den_visibility_word (v s : string) :
  In v VISIBILITY_WORDS -> den false visibility (v ++ s) s.
Proof.
  unfold VISIBILITY_WORDS, visibility. cbn [den alts].
  intros [<- | [<- | [<- | []]]].
  - left. apply den_lit_plain.
  - right; left. apply den_lit_plain.
  - right; right; left. apply den_lit_plain.
Qed.

Lemma den_plus_word (w s : string) :
  w <> "" -> allb isword w = true -> den false (Plus Word) (w ++ s) s.
Proof.
  destruct w as [|a w]; [congruence|]. intros _ H.
  simpl in H. apply andb_true_iff in H. destruct H as (Ha & Hw).
  exists a, w. auto.
Qed.

Lemma den_star_dot (w s : string) :
  allb not_nl w = true -> den false (Star Dot) (w ++ s) s.
Proof. intros H. exists w. auto. Qed.

Lemma den_decl_head (t : list regex) (indent v w1 s s' : string) :
  allb isspace indent = true -> In v VISIBILITY_WORDS ->
  w1 <> "" -> allb isspace w1 = true ->
  den false (cats t) s s' ->
  den false (decl_body t) (indent ++ v ++ w1 ++ s) s'.
Proof.
  intros Hi Hv N1 S1 Hd. unfold decl_body. cbn [den].
  eexists; split; [exists indent; split; [reflexivity|exact Hi]|].
  eexists; split; [now apply den_visibility_word|].
  eexists; split; [now apply den_plus_space|]. exact Hd.
Qed.

(** X18. Plain methods, types and properties are recognised.  After any
    indentation and one of the keywords public, internal, protected
    followed by whitespace, the line is a declaration line when it goes on
    with (1) any text, whitespace, a name and an opening parenthesis;
    (2) one of the keywords class, struct, interface, enum, whitespace
    and a name; (3) a type name, whitespace, a name and an opening
    brace.  Names are non-empty runs of word characters; whitespace may
    stand before the parenthesis or the brace. *)
Theorem plain_declarations_recognised
    (indent v w1 w2 w3 name rest : string) :
  allb isspace indent = true -> In v VISIBILITY_WORDS ->
  w1 <> "" -> allb isspace w1 = true ->
  w2 <> "" -> allb isspace w2 = true ->
  allb isspace w3 = true ->
  name <> "" -> allb isword name = true ->
  (forall ret, allb not_nl ret = true ->
     is_member_line
       (indent ++ v ++ w1 ++ ret ++ w2 ++ name ++ w3 ++ "(" ++ rest) = true) /\
  (forall kw, In kw TYPE_WORDS ->
     is_member_line (indent ++ v ++ w1 ++ kw ++ w2 ++ name ++ rest) = true) /\
  (forall ty, ty <> "" -> allb isword ty = true ->
     is_member_line
       (indent ++ v ++ w1 ++ ty ++ w2 ++ name ++ w3 ++ "{" ++ rest) = true).
Proof.
  intros Hi Hv N1 S1 N2 S2 S3 Nn Wn.
  split; [|split].
  - intros ret Hret. apply is_member_line_iff.
    exists [Star Dot; Plus Space; Grp (Plus Word); Star Space;
            Chr (Lit "("%char)], rest.
    split; [now left|]. apply den_decl_head; auto. cbn [cats den].
    eexists; split; [now apply den_star_dot|].
    eexists; split; [now apply den_plus_space|].
    eexists; split; [now apply den_plus_word|].
    eexists; split; [now apply den_star_space|].
    exists "("%char. auto.
  - intros kw Hkw. apply is_member_line_iff.
    exists [static_opt;
            NGrp (alts [lit "class"; lit "struct"; lit "interface";
                        lit "enum"]);
            Plus Space; Grp (Plus Word)], rest.
    split; [simpl; auto 6|]. apply den_decl_head; auto.
    cbn [cats den static_opt alts].
    eexists; split; [left; reflexivity|].
    eexists; split.
    { unfold TYPE_WORDS in Hkw. destruct Hkw as [<- | [<- | [<- | [<- | []]]]].
      - left. apply den_lit_plain.
      - right; left. apply den_lit_plain.
      - right; right; left. apply den_lit_plain.
      - right; right; right. apply den_lit_plain. }
    eexists; split; [now apply den_plus_space|].
    now apply den_plus_word.
  - intros ty Nt Wt. apply is_member_line_iff.
    exists [static_opt; readonly_opt; Grp (Plus Word); Plus Space;
            Grp (Plus Word); Star Space; Chr (Lit "{"%char)], rest.
    split; [simpl; auto 6|]. apply den_decl_head; auto.
    cbn [cats den static_opt readonly_opt].
    eexists; split; [left; reflexivity|].
    eexists; split; [left; reflexivity|].
    eexists; split; [now apply den_plus_word|].
    eexists; split; [now apply den_plus_space|].
    eexists; split; [now apply den_plus_word|].
    eexists; split; [now apply den_star_space|].
    exists "{"%char. auto.
Qed.

(** ** Lines that are not recognised *)

Lemma word_not_space (a : ascii) : isword a = true -> isspace a = false.
Proof. destruct a as [[] [] [] [] [] [] [] []]; vm_compute; congruence. Qed.

Lemma append_eq_split (a b c d : string) :
  a ++ b = c ++ d ->
  (exists k, c = a ++ k /\ b = k ++ d) \/ (exists k, a = c ++ k /\ d = k ++ b).
Proof.
  revert c; induction a as [|x a IH]; intros c E; simpl in E.
  - left. exists c. auto.
  - destruct c as [|y c]; simpl in E.
    + right. exists (String x a). auto.
    + inversion E; subst.
      destruct (IH c H1) as [(k & -> & ->) | (k & -> & ->)];
        [left | right]; exists k; auto.
Qed.

Lemma den_lit_inv (x s s' : string) : den false (lit x) s s' -> s = x ++ s'.
Proof.
  revert s; induction x as [|c x IH]; intros s H.
  - simpl in H. now subst.
  - destruct x as [|d x].
    + simpl in H. destruct H as (a & -> & Ha).
      apply Ascii.eqb_eq in Ha. now subst.
    + change (lit (String c (String d x)))
        with (Cat (Chr (Lit c)) (lit (String d x))) in H.
      destruct H as (t & (a & -> & Ha) & Hd).
      apply Ascii.eqb_eq in Ha. subst a.
      rewrite (IH t Hd). reflexivity.
Qed.

Section AfterTheName.

(** The text after the parenthesis that follows the name. *)
Variable rest : string.

Lemma word_prefix_split (x : string) :
  forall n s, allb isword x = true ->
  x ++ s = n ++ String "(" rest ->
  exists n2, n = x ++ n2 /\ s = n2 ++ String "(" rest.
Proof.
  induction x as [|c x IH]; intros n s Hx E; simpl in *.
  - exists n. auto.
  - apply andb_true_iff in Hx. destruct Hx as (Hc & Hx).
    destruct n as [|d n]; simpl in E; inversion E; subst.
    + discriminate.
    + destruct (IH n s Hx H1) as (n2 & -> & ->). exists n2. auto.
Qed.

Lemma in_name_start (u : string) (a : ascii) (t : string) :
  in_name rest u -> u = String a t -> isspace a = false /\ a <> "{"%char.
Proof.
  intros (n & Hn & ->) E. destruct n as [|b n]; simpl in *.
  - inversion E; subst. split; [reflexivity|discriminate].
  - inversion E; subst. apply andb_true_iff in Hn. destruct Hn as (Hb & _).
    split; [now apply word_not_space|].
    intros ->. discriminate.
Qed.

Lemma in_name_plus_space (u s : string) :
  in_name rest u -> den false (Plus Space) u s -> False.
Proof.
  intros Hu (a & w & E & Ha & _).
  destruct (in_name_start u a _ Hu E) as (Hs & _).
  cbn [cset_mem] in Ha. congruence.
Qed.

Lemma in_name_star_space (u s : string) :
  in_name rest u -> den false (Star Space) u s -> s = u.
Proof.
  intros Hu (w & E & Hw). destruct w as [|a w]; [now subst|].
  simpl in E, Hw. apply andb_true_iff in Hw. destruct Hw as (Ha & _).
  destruct (in_name_start u a _ Hu E) as (Hs & _).
  cbn [cset_mem] in Ha. congruence.
Qed.

Lemma in_name_brace (u s : string) :
  in_name rest u -> den false (Chr (Lit "{"%char)) u s -> False.
Proof.
  intros Hu (a & E & Ha). cbn [cset_mem] in Ha.
  apply Ascii.eqb_eq in Ha. subst a.
  destruct (in_name_start u _ _ Hu E) as (_ & Hb). congruence.
Qed.

Lemma in_name_words (x u s : string) :
  allb isword x = true -> in_name rest u -> u = x ++ s ->
  in_name rest s /\ exists n n2, u = n ++ String "(" rest /\ n = x ++ n2.
Proof.
  intros Hx (n & Hn & ->) E. symmetry in E.
  destruct (word_prefix_split x n s Hx E) as (n2 & -> & ->).
  rewrite allb_app in Hn. apply andb_true_iff in Hn. destruct Hn as (_ & Hn2).
  split; [exists n2; auto|]. exists (x ++ n2), n2. auto.
Qed.

Lemma in_name_lit (x u s : string) :
  allb isword x = true -> in_name rest u -> den false (lit x) u s -> in_name rest s.
Proof.
  intros Hx Hu Hd. apply den_lit_inv in Hd.
  now destruct (in_name_words x u s Hx Hu Hd).
Qed.

Lemma in_name_plus_word (u s : string) :
  in_name rest u -> den false (Plus Word) u s -> in_name rest s.
Proof.
  intros Hu (a & w & E & Ha & Hw).
  change (isword a = true) in Ha. change (allb isword w = true) in Hw.
  assert (Hx : allb isword (String a w) = true)
    by (simpl; now rewrite Ha, Hw).
  now destruct (in_name_words (String a w) u s Hx Hu E).
Qed.

Lemma in_name_word_then_space (x u s t : string) :
  allb isword x = true -> in_name rest u ->
  den false (lit x) u s -> den false (Plus Space) s t -> False.
Proof.
  intros Hx Hu H1 H2.
  exact (in_name_plus_space s t (in_name_lit x u s Hx Hu H1) H2).
Qed.

Lemma in_name_static_opt (u s : string) :
  in_name rest u -> den false static_opt u s -> s = u.
Proof.
  intros Hu [-> | (t & H1 & H2)]; auto. exfalso.
  exact (in_name_word_then_space "static" u t s eq_refl Hu H1 H2).
Qed.

Lemma in_name_readonly_opt (u s : string) :
  in_name rest u -> den false readonly_opt u s -> s = u.
Proof.
  intros Hu [-> | (t & H1 & H2)]; auto. exfalso.
  exact (in_name_word_then_space "readonly" u t s eq_refl Hu H1 H2).
Qed.

(** The first pattern needs whitespace, a name and a parenthesis after
    the text it skips; a line with one parenthesis, right after a name
    that follows the visibility keyword, has no room for them. *)
Lemma in_name_method_tail (name s' : string) :
  allb isword name = true -> contains "(" rest = false ->
  den false
    (cats [Star Dot; Plus Space; Grp (Plus Word); Star Space;
           Chr (Lit "("%char)])
    (name ++ String "(" rest) s' -> False.
Proof.
  intros Hn Hrest Hd. cbn [cats den] in Hd.
  destruct Hd as (s4 & (d & E & _) & s5 & (a & w & E4 & Ha & _) &
                  s6 & (b & w2 & E5 & _) & s7 & (w3 & E6 & _) &
                  (p & E7 & Hp)).
  cbn [cset_mem] in Ha, Hp. apply Ascii.eqb_eq in Hp. subst.
  symmetry in E. apply append_eq_split in E.
  destruct E as [(k & E1 & E2) | (k & E1 & E2)].
  - destruct k as [|x k]; simpl in E2; inversion E2; subst.
    + discriminate.
    + rewrite allb_app in Hn. apply andb_true_iff in Hn.
      destruct Hn as (_ & Hn). simpl in Hn.
      apply andb_true_iff in Hn. destruct Hn as (Hx & _).
      apply word_not_space in Hx. congruence.
  - destruct k as [|x k]; simpl in E2; inversion E2; subst.
    + discriminate.
    + assert (contains "("
                (k ++ String a (w ++ String b (w2 ++ w3 ++ String "(" s')))
              = true).
      { apply contains_app_r, contains_cons, contains_app_r, contains_cons,
          contains_app_r, contains_app_r, contains_here.
        rewrite prefix_cons. apply prefix_nil. }
      congruence.
Qed.

End AfterTheName.

Lemma den_visibility_inv (s s2 : string) :
  den false visibility s s2 ->
  s = "public" ++ s2 \/ s = "internal" ++ s2 \/ s = "protected" ++ s2 \/
  exists t u, s = "protected" ++ t /\ den false (Plus Space) t u /\
              u = "internal" ++ s2.
Proof.
  unfold visibility. cbn [den alts cats].
  intros [H | [H | [H | (t & H1 & u & H2 & H3)]]].
  - left. now apply den_lit_inv.
  - right; left. now apply den_lit_inv.
  - right; right; left. now apply den_lit_inv.
  - right; right; right. exists t, u.
    apply den_lit_inv in H1, H3. auto.
Qed.

(** After the keyword and one whitespace character the patterns are at the
    name. *)
Lemma after_visibility (v name rest s2 s3 : string) (c : ascii) :
  In v VISIBILITY_WORDS -> isspace c = true ->
  name <> "" -> allb isword name = true ->
  den false visibility (v ++ String c (name ++ String "(" rest)) s2 ->
  den false (Plus Space) s2 s3 ->
  s3 = name ++ String "(" rest.
Proof.
  intros Hv Hc Nn Wn Hvis Hsp.
  assert (Hname : in_name rest (name ++ String "(" rest))
    by (exists name; auto).
  assert (Hmain : s2 = String c (name ++ String "(" rest) ->
                  s3 = name ++ String "(" rest).
  { intros ->. destruct Hsp as (a & w & E & _ & Hw).
    inversion E; subst.
    apply (in_name_star_space rest _ s3 Hname). exists w. auto. }
  apply den_visibility_inv in Hvis.
  unfold VISIBILITY_WORDS in Hv.
  destruct Hv as [<- | [<- | [<- | []]]];
    destruct Hvis as [E | [E | [E | (t & u & E & Ht & Hu)]]];
    simpl in E; try discriminate;
    try (inversion E; subst; now apply Hmain).
  exfalso. inversion E; subst t; clear E.
  destruct Ht as (a & w & E & _ & Hw). inversion E; subst a.
  assert (Hu' : u = name ++ String "(" rest).
  { apply (in_name_star_space rest _ u Hname). exists w. auto. }
  assert (Hs2 : in_name rest s2).
  { apply (in_name_lit rest "internal" u s2 eq_refl).
    - now rewrite Hu'.
    - rewrite Hu. apply den_lit_plain. }
  exact (in_name_plus_space rest s2 s3 Hs2 Hsp).
Qed.

(** X19. A constructor written in the usual way is not recognised: after
    any indentation, a line made of public, internal or protected, one
    whitespace character, a name and the opening parenthesis right after
    the name matches none of the eleven patterns, unless the name starts
    with operator or a later parenthesis follows on the line.  The run in
    front of such a line is dropped. *)
Theorem constructor_line_not_recognised
    (indent v name rest : string) (c : ascii) :
  allb isspace indent = true -> In v VISIBILITY_WORDS ->
  isspace c = true ->
  name <> "" -> allb isword name = true ->
  prefix "operator" name = false ->
  contains "(" rest = false ->
  is_member_line (indent ++ v ++ String c (name ++ String "(" rest)) = false.
Proof.
  intros Hi Hv Hc Nn Wn Hop Hrest.
  destruct (is_member_line _) eqn:Hmem; auto. exfalso.
  destruct (is_member_line_den _ Hmem)
    as (t & w & s1 & s2 & s3 & s' & Ht & E & Hw & Hvis & Hsp & Hd).
  assert (Hs1 : s1 = v ++ String c (name ++ String "(" rest)).
  { destruct (den_visibility _ _ Hvis) as (x & u & Ex & Hx).
    assert (L1 : lstrip (w ++ s1) = s1).
    { rewrite lstrip_spaces by assumption. subst s1.
      apply lstrip_nonspace. destruct Hx; subst; reflexivity. }
    rewrite <- L1, <- E. rewrite lstrip_spaces by assumption.
    unfold VISIBILITY_WORDS in Hv.
    destruct Hv as [<- | [<- | [<- | []]]]; reflexivity. }
  subst s1.
  pose proof (after_visibility v name rest s2 s3 c Hv Hc Nn Wn Hvis Hsp)
    as ->.
  assert (Hname : in_name rest (name ++ String "(" rest))
    by (exists name; auto).
  clear Hmem E Hvis Hsp.
  unfold MEMBER_TAILS in Ht.
  repeat (destruct Ht as [<- | Ht]); try contradiction;
    cbn [cats] in Hd.
  - exact (in_name_method_tail rest name s' Wn Hrest Hd).
  - destruct Hd as (u1 & H1 & u2 & H2 & u3 & H3 & H4).
    apply (in_name_static_opt rest) in H1; auto. subst u1.
    apply (in_name_plus_word rest) in H2; auto.
    rewrite (in_name_star_space rest u2 u3 H2 H3) in H4.
    exact (in_name_brace rest u2 s' H2 H4).
  - destruct Hd as (u1 & H1 & u2 & H2 & u3 & H3 & u4 & H4 & _).
    apply (in_name_static_opt rest) in H1; auto. subst u1.
    apply (in_name_readonly_opt rest) in H2; auto. subst u2.
    apply (in_name_plus_word rest) in H3; auto.
    exact (in_name_plus_space rest u3 u4 H3 H4).
  - destruct Hd as (u1 & H1 & u2 & H2 & u3 & H3 & _).
    apply (in_name_static_opt rest) in H1; auto. subst u1.
    cbn [den alts] in H2.
    destruct H2 as [H2 | [H2 | [H2 | H2]]];
      apply (in_name_lit rest) in H2; auto;
      exact (in_name_plus_space rest u2 u3 H2 H3).
  - destruct Hd as (u1 & H1 & u2 & H2 & _).
    exact (in_name_word_then_space rest "implicit" _ u1 u2 eq_refl Hname H1 H2).
  - destruct Hd as (u1 & H1 & u2 & H2 & _).
    exact (in_name_word_then_space rest "explicit" _ u1 u2 eq_refl Hname H1 H2).
  - destruct Hd as (u1 & H1 & u2 & H2 & _).
    exact (in_name_word_then_space rest "static" _ u1 u2 eq_refl Hname H1 H2).
  - destruct Hd as (u1 & H1 & u2 & H2 & _).
    exact (in_name_word_then_space rest "static" _ u1 u2 eq_refl Hname H1 H2).
  - destruct Hd as (u1 & H1 & u2 & H2 & _).
    exact (in_name_word_then_space rest "static" _ u1 u2 eq_refl Hname H1 H2).
  - destruct Hd as (u1 & H1 & u2 & H2 & _).
    apply (in_name_plus_word rest) in H1; auto.
    exact (in_name_plus_space rest u1 u2 H1 H2).
  - destruct Hd as (u1 & H1 & u2 & H2 & H3).
    apply (in_name_static_opt rest) in H1; auto. subst u1.
    assert (u2 = name ++ String "(" rest) as ->.
    { destruct H2 as [-> | (u3 & H2 & H2')]; auto. exfalso.
      apply (in_name_plus_word rest) in H2; auto.
      exact (in_name_plus_space rest u3 u2 H2 H2'). }
    unfold operator_kw in H3. apply den_lit_inv in H3.
    destruct (word_prefix_split rest "operator" name s' eq_refl
                (eq_sym H3)) as (n2 & -> & _).
    rewrite prefix_append in Hop. discriminate.
Qed.

(* ================================================================== *)
(** * The further properties at work on small files *)

Lemma undocumented_members_not_reported_witness :
  validate_file (fun _ => ReadOk constructor_example) "Widget.cs" = [].
Proof.
  apply (proj2 (undocumented_members_not_reported
                  (fun _ => ReadOk constructor_example) "Widget.cs"
                  constructor_example eq_refl)).
  assert (E : split_nl constructor_example =
              [ "/// <summary>Makes a widget.</summary>";
                "public Widget(int size)"; "{"; "}" ])
    by (vm_compute; reflexivity).
  rewrite E. intros k (l0 & l1 & H0 & H1 & Hrest).
  destruct k as [|[|[|[|[|k]]]]];
    cbn [line_at nth_error Nat.sub] in H0, H1;
    try discriminate H0; try discriminate H1;
    try (destruct k; discriminate H1);
    inversion H0; inversion H1; subst; destruct Hrest as (Hd & Hm);
    vm_compute in Hd, Hm;
    first [discriminate Hd | discriminate Hm].
Defined.

Lemma block_flags_from_markers_witness :
  exists b,
    In b (extract_xml_doc_blocks no_example) /\
    start_line b = 1 /\ member_line b = 2 /\
    has_summary b = existsb has_summary_open ["/// <summary>Name.</summary>"] /\
    has_example b = existsb has_example_open ["/// <summary>Name.</summary>"] /\
    has_code_csharp b = existsb opens ["/// <summary>Name.</summary>"].
Proof.
  apply (block_flags_from_markers no_example []
           ["/// <summary>Name.</summary>"] []
           "public string Name { get; set; }");
    [reflexivity | reflexivity | discriminate | repeat constructor
    | reflexivity].
Defined.

Lemma extract_of_concatenation_witness :
  extract_xml_doc_blocks (no_example ++ String nl code_example) =
  (extract_xml_doc_blocks no_example ++
   map (shift_block (List.length (split_nl no_example)))
       (extract_xml_doc_blocks code_example))%list.
Proof.
  apply (extract_of_concatenation no_example code_example). reflexivity.
Defined.

Lemma extraction_ignores_indentation_witness :
  extract_xml_doc_blocks indented_example = extract_xml_doc_blocks code_example.
Proof.
  apply (extraction_ignores_indentation code_example indented_example).
  assert (Ea : split_nl code_example =
               [ "/// <summary>One.</summary>"; "/// <example>";
                 "/// " ++ CODE_OPEN; "///   return 1;"; "/// </code>";
                 "/// </example>"; "public int One() {" ])
    by (vm_compute; reflexivity).
  assert (Eb : split_nl indented_example =
               [ "    /// <summary>One.</summary>"; "    /// <example>";
                 "    /// " ++ CODE_OPEN; "    ///   return 1;";
                 "    /// </code>"; "    /// </example>";
                 "    public int One() {" ])
    by (vm_compute; reflexivity).
  rewrite Ea, Eb. repeat (constructor; [reflexivity|]). constructor.
Defined.

Lemma diagnostics_point_at_run_start_witness :
  file (mkDocIssue "Name.cs" 1 "error" MSG_EXAMPLE) = "Name.cs" /\
  (issue_type (mkDocIssue "Name.cs" 1 "error" MSG_EXAMPLE) = "error" \/
   issue_type (mkDocIssue "Name.cs" 1 "error" MSG_EXAMPLE) = "warning") /\
  (exists l, line_at (split_nl no_example)
               (line (mkDocIssue "Name.cs" 1 "error" MSG_EXAMPLE)) = Some l /\
             is_doc_line l = true) /\
  (forall l, line_at (split_nl no_example)
               (line (mkDocIssue "Name.cs" 1 "error" MSG_EXAMPLE) - 1) = Some l ->
             is_doc_line l = false).
Proof.
  apply (diagnostics_point_at_run_start (fun _ => ReadOk no_example)
           "Name.cs" no_example (mkDocIssue "Name.cs" 1 "error" MSG_EXAMPLE));
    [reflexivity | left; reflexivity].
Defined.

Lemma diagnostics_bounded_witness :
  List.length (filter is_error
                 (validate_file (fun _ => ReadOk todo_example) "Kind.cs"))
    <= count_member_lines (split_nl todo_example) /\
  List.length (validate_file (fun _ => ReadOk todo_example) "Kind.cs")
    <= 5 * count_member_lines (split_nl todo_example).
Proof.
  apply (diagnostics_bounded (fun _ => ReadOk todo_example) "Kind.cs"
           todo_example).
  reflexivity.
Defined.

Lemma unreadable_file_fails_run_witness :
  exit_code (run_files broken_fs ["One.cs"; "Bad.cs"]) = 1 /\
  exists n, 0 < n /\
    main_verdict (run_files broken_fs ["One.cs"; "Bad.cs"]) = Failed n.
Proof.
  apply (unreadable_file_fails_run broken_fs ["One.cs"; "Bad.cs"]
           "Bad.cs" "Permission denied");
    [right; left; reflexivity | reflexivity].
Defined.

Lemma placeholder_found_in_context_witness :
  In (lit "TODO")
     (check_for_placeholders ("var x = 1; // " ++ "todo" ++ ": real call")).
Proof.
  apply (placeholder_found_in_context (lit "TODO") "todo"
           "var x = 1; // " ": real call").
  vm_compute. left. reflexivity.
Defined.

Lemma phrase_found_across_lines_witness :
  In PHRASE_PATTERN (check_for_placeholders phrase_example).
Proof.
  apply (phrase_found_across_lines "// " "." "Invoke" (String nl "")
           "THE" " " "member" "  " "here");
    try reflexivity; discriminate.
Defined.

Lemma member_line_with_trailing_text_witness :
  is_member_line ("public class Kind" ++ " : Base { } // kind") = true.
Proof.
  apply (member_line_with_trailing_text "public class Kind"
           " : Base { } // kind").
  reflexivity.
Defined.

Lemma plain_declarations_recognised_witness :
  is_member_line
    ("  " ++ "public" ++ " " ++ "void" ++ " " ++ "Run" ++ "" ++ "(" ++ ") {")
    = true /\
  is_member_line ("  " ++ "public" ++ " " ++ "struct" ++ " " ++ "Run" ++ ") {")
    = true /\
  is_member_line
    ("  " ++ "public" ++ " " ++ "int" ++ " " ++ "Run" ++ "" ++ "{" ++ ") {")
    = true.
Proof.
  destruct (plain_declarations_recognised "  " "public" " " " " "" "Run" ") {")
    as (H1 & H2 & H3);
    try reflexivity; try discriminate; [left; reflexivity|].
  split; [apply (H1 "void"); reflexivity|].
  split; [apply (H2 "struct"); right; left; reflexivity|].
  apply (H3 "int"); [discriminate|reflexivity].
Defined.

Lemma constructor_line_not_recognised_witness :
  is_member_line
    ("    " ++ "public" ++ String " " ("Widget" ++ String "(" "int size)"))
  = false.
Proof.
  apply (constructor_line_not_recognised "    " "public" "Widget"
           "int size)" " "%char);
    try reflexivity; [left; reflexivity | discriminate].
Defined.

Example constructor_example_dropped :
  extract_xml_doc_blocks constructor_example = [].
Proof. reflexivity. Qed.

Example five_dots_pass :
  check_for_placeholders "wait....." = [].
Proof. reflexivity. Qed.

Example phrase_pattern_src :
  show PHRASE_PATTERN = "invoke\s+the\s+member\s+here" /\
  nth_error PLACEHOLDER_PATTERNS 0 = Some PHRASE_PATTERN.
Proof. split; reflexivity. Qed.

Example decl_body_src :
  map (fun t => Cat Bol (decl_body t)) MEMBER_TAILS = MEMBER_PATTERNS.
Proof. reflexivity. Qed.
